(** * Escalation tracking of the support alert system

    A shallow embedding of the webhook escalation path of
    [functions/src/scheduler.ts]: the event log ("webhook-events"), the
    conversation documents ("conversations"), the aggregate counter
    document ("support/current") and the functions
    [processWebhookEvent], [handleConversationEvent],
    [checkForBotEscalation], [checkRecentBotAssignment],
    [handleConversationClosure], [incrementEscalatedSessions],
    [decrementEscalatedSessions], and the administrative endpoints
    [resetEscalations] and [recalculateEscalations].

    Firestore is modelled as a store record; every [await] on it is a step
    of a small state-and-exception monad, so that a [throw] leaves the
    writes that happened before it in place, as Firestore does.  The full
    HubSpot data refresh at the end of [handleConversationEvent] and in
    [handleTicketEvent] only runs when an access token is configured; it is
    the reconciliation collaborator and is modelled as the configuration
    without a token, where it is skipped. *)

From Stdlib Require Import String Ascii List ZArith Lia Bool.
From Stdlib Require Import DecimalNat DecimalString.
From stdpp Require Import base gmap strings list sorting.

Open Scope string_scope.

(** ** Values *)

(** A webhook [objectId]: the payload carries a JSON string or a JSON
    number (non-negative integer ids). *)
Inductive ObjId :=
| OStr (s : string)
| ONum (n : nat).

(** [String(objectId)]: a number is rendered in decimal. *)
Definition js_String (o : ObjId) : string :=
  match o with
  | OStr s => s
  | ONum n => NilEmpty.string_of_uint (Nat.to_uint n)
  end.

(** [parseInt(s, 10)]: skip leading white space, read an optional sign,
    then the longest prefix of decimal digits; [None] is [NaN].

    Strings are UTF-8 byte sequences.  The white space that [parseInt] and
    [String.prototype.trim] strip is ECMAScript's StrWhiteSpaceChar: TAB,
    LF, VT, FF, CR and SPACE (one byte), NO-BREAK SPACE U+00A0 (two bytes),
    and U+1680, U+2000..U+200A, U+2028, U+2029, U+202F, U+205F, U+3000 and
    U+FEFF (three bytes). *)
Definition is_js_space (c : ascii) : bool :=
  match c with
  | " "%char | "009"%char | "010"%char | "011"%char | "012"%char
  | "013"%char => true
  | _ => false
  end.

(** U+00A0 *)
Definition js_space2 (c c1 : ascii) : bool :=
  N.eqb (N_of_ascii c) 194 && N.eqb (N_of_ascii c1) 160.

Definition js_space3 (c c1 c2 : ascii) : bool :=
  let b := N_of_ascii c in
  let b1 := N_of_ascii c1 in
  let b2 := N_of_ascii c2 in
  (N.eqb b 225 && N.eqb b1 154 && N.eqb b2 128)            (* U+1680 *)
  || (N.eqb b 226 && N.eqb b1 128 &&
      ((N.leb 128 b2 && N.leb b2 138)                       (* U+2000..U+200A *)
       || N.eqb b2 168 || N.eqb b2 169                      (* U+2028, U+2029 *)
       || N.eqb b2 175))                                    (* U+202F *)
  || (N.eqb b 226 && N.eqb b1 129 && N.eqb b2 159)          (* U+205F *)
  || (N.eqb b 227 && N.eqb b1 128 && N.eqb b2 128)          (* U+3000 *)
  || (N.eqb b 239 && N.eqb b1 187 && N.eqb b2 191).         (* U+FEFF *)

(** The string starts with a white-space character. *)
Definition starts_with_space (s : string) : bool :=
  match s with
  | String c r =>
      is_js_space c ||
      match r with
      | String c1 r1 =>
          js_space2 c c1 ||
          match r1 with
          | String c2 _ => js_space3 c c1 c2
          | EmptyString => false
          end
      | EmptyString => false
      end
  | EmptyString => false
  end.

Definition digit_of (c : ascii) : option nat :=
  let k := nat_of_ascii c in
  if Nat.leb 48 k && Nat.leb k 57 then Some (k - 48)%nat else None.

(** [TrimString(s, start)] *)
Fixpoint skip_space (s : string) : string :=
  match s with
  | String c r =>
      if is_js_space c then skip_space r else
      match r with
      | String c1 r1 =>
          if js_space2 c c1 then skip_space r1 else
          match r1 with
          | String c2 r2 => if js_space3 c c1 c2 then skip_space r2 else s
          | EmptyString => s
          end
      | EmptyString => s
      end
  | EmptyString => s
  end.

Fixpoint digits_acc (s : string) (acc : nat) : nat :=
  match s with
  | String c r =>
      match digit_of c with
      | Some d => digits_acc r (10 * acc + d)
      | None => acc
      end
  | EmptyString => acc
  end.

Definition parse_unsigned (s : string) : option nat :=
  match s with
  | String c r =>
      match digit_of c with
      | Some d => Some (digits_acc r d)
      | None => None
      end
  | EmptyString => None
  end.

Definition parseInt (s : string) : option Z :=
  match skip_space s with
  | String "-"%char r => option_map (fun n => (- Z.of_nat n)%Z) (parse_unsigned r)
  | String "+"%char r => option_map Z.of_nat (parse_unsigned r)
  | s' => option_map Z.of_nat (parse_unsigned s')
  end.

(** JavaScript truthiness of an optional string field. *)
Definition truthy (o : option string) : bool :=
  match o with
  | Some s => negb (String.eqb s "")
  | None => false
  end.

(** [field === "v"] on an optional string field. *)
Definition is_str (o : option string) (v : string) : bool :=
  match o with
  | Some x => String.eqb x v
  | None => false
  end.

(** [field === true] on an optional boolean field. *)
Definition strictly_true (o : option bool) : bool :=
  match o with
  | Some true => true
  | _ => false
  end.

(** [configuredBotIds.includes(x)] *)
Definition includes (bots : list string) (x : string) : bool :=
  existsb (String.eqb x) bots.

(** ** Documents *)

(** A document of the "conversations" collection.  Every field is
    optional: documents are built by merge writes.  Time stamps
    ([new Date().toISOString()]) are kept as the clock value they render. *)
Record ConvDoc := mkConv {
  currentAssignee : option string;
  hasBotAssignment : option bool;
  status : option string;
  escalated : option bool;
  escalatedAt : option nat;
  escalatedFrom : option string;
  escalatedTo : option string;
  escalationCounted : option bool;
  closedAt : option nat;
  lastUpdated : option nat
}.

Definition empty_conv : ConvDoc :=
  mkConv None None None None None None None None None None.

(** The "support/current" document ([SupportData]). *)
Record Tickets := mkTickets { t_open : Z; t_chat : Z; t_email : Z; t_other : Z }.

Record SupportData := mkSupport {
  tickets : Tickets;
  sessions_active : option Z;
  sessions_escalated : option Z;
  sd_lastUpdated : nat;
  sd_source : string
}.

(** A document of the "webhook-events" collection: the event spread with
    its ingestion [timestamp] (an ISO-8601 string, whose order is the
    order of the clock value kept here). *)
Record WebhookEvent := mkEvent {
  subscriptionType : string;
  propertyName : option string;
  propertyValue : option string;
  objectId : ObjId
}.

Record LoggedEvent := mkLogged {
  le_event : WebhookEvent;
  le_timestamp : nat
}.

(** A document of the "critical-alerts" collection. *)
Record Alert := mkAlert { al_type : string; al_conversation : string }.

Record Store := mkStore {
  conversations : gmap string ConvDoc;
  support : option SupportData;
  webhook_events : list LoggedEvent;
  critical_alerts : list Alert
}.

(** ** A state and exception monad for the awaited Firestore calls *)

Inductive Res (A : Type) := Ok (a : A) | Thrown (msg : string).
Arguments Ok {A} a.
Arguments Thrown {A} msg.

Definition M (A : Type) := Store -> Res A * Store.

Definition ret {A} (a : A) : M A := fun s => (Ok a, s).
Definition bind {A B} (m : M A) (k : A -> M B) : M B :=
  fun s => match m s with
           | (Ok a, s') => k a s'
           | (Thrown e, s') => (Thrown e, s')
           end.
Definition throw {A} (e : string) : M A := fun s => (Thrown e, s).
(** [try { m } catch (e) { h(e) }] *)
Definition try_catch {A} (m : M A) (h : string -> M A) : M A :=
  fun s => match m s with
           | (Ok a, s') => (Ok a, s')
           | (Thrown e, s') => h e s'
           end.
Definition gets {A} (f : Store -> A) : M A := fun s => (Ok (f s), s).
Definition modify (f : Store -> Store) : M unit := fun s => (Ok tt, f s).

Notation "'let!' x ':=' m 'in' k" := (bind m (fun x => k))
  (at level 200, x name, m at level 100, k at level 200).
Notation "'await!' m 'in' k" := (bind m (fun _ => k))
  (at level 200, m at level 100, k at level 200).

(** [logger.*] calls have no effect on the store. *)
Definition log_only : M unit := ret tt.

(** ** Store accessors *)

Definition set_conversations (m : gmap string ConvDoc) (s : Store) : Store :=
  mkStore m (support s) (webhook_events s) (critical_alerts s).
Definition set_support (d : option SupportData) (s : Store) : Store :=
  mkStore (conversations s) d (webhook_events s) (critical_alerts s).
Definition set_webhook_events (l : list LoggedEvent) (s : Store) : Store :=
  mkStore (conversations s) (support s) l (critical_alerts s).
Definition set_critical_alerts (l : list Alert) (s : Store) : Store :=
  mkStore (conversations s) (support s) (webhook_events s) l.

(** [conversationRef.get()] *)
Definition conv_get (cid : string) : M (option ConvDoc) :=
  gets (fun s => conversations s !! cid).

(** [conversationRef.set(fields, { merge: true })]: creates the document
    when it is missing and overwrites only the given fields. *)
Definition conv_merge (cid : string) (fields : ConvDoc -> ConvDoc) : M unit :=
  modify (fun s =>
    set_conversations
      (<[cid := fields (default empty_conv (conversations s !! cid))]>
         (conversations s)) s).

(** [conversationRef.update(fields)]: fails on a missing document. *)
Definition conv_update (cid : string) (fields : ConvDoc -> ConvDoc) : M unit :=
  fun s => match conversations s !! cid with
           | Some d => (Ok tt, set_conversations (<[cid := fields d]> (conversations s)) s)
           | None => (Thrown "NOT_FOUND", s)
           end.

(** The field sets written by the detector and the closure handler. *)
Definition bot_fields (a : string) (now : nat) (d : ConvDoc) : ConvDoc :=
  mkConv (Some a) (Some true) (Some "OPEN") (escalated d) (escalatedAt d)
         (escalatedFrom d) (escalatedTo d) (escalationCounted d) (closedAt d)
         (Some now).

(** Escalation write of [checkForBotEscalation]. *)
Definition escalation_fields (h from : string) (now : nat) (d : ConvDoc) : ConvDoc :=
  mkConv (Some h) (Some true) (Some "OPEN") (Some true) (Some now)
         (Some from) (Some h) (Some true) (closedAt d) (Some now).

(** Plain human-assignment write of [checkForBotEscalation]. *)
Definition human_fields (h : string) (now : nat) (d : ConvDoc) : ConvDoc :=
  mkConv (Some h) (hasBotAssignment d) (Some "OPEN") (escalated d) (escalatedAt d)
         (escalatedFrom d) (escalatedTo d) (escalationCounted d) (closedAt d)
         (Some now).

(** Closure update of an escalated conversation. *)
Definition closed_counted_fields (now : nat) (d : ConvDoc) : ConvDoc :=
  mkConv (currentAssignee d) (hasBotAssignment d) (Some "CLOSED") (escalated d)
         (escalatedAt d) (escalatedFrom d) (escalatedTo d) (Some false)
         (Some now) (lastUpdated d).

(** Closure update of a conversation that was not escalated. *)
Definition closed_fields (now : nat) (d : ConvDoc) : ConvDoc :=
  mkConv (currentAssignee d) (hasBotAssignment d) (Some "CLOSED") (escalated d)
         (escalatedAt d) (escalatedFrom d) (escalatedTo d) (escalationCounted d)
         (Some now) (lastUpdated d).

(** [{...currentData, sessions: {...currentData.sessions, escalated: c},
      lastUpdated, source}] *)
Definition with_escalated (c : Z) (now : nat) (src : string) (sd : SupportData)
  : SupportData :=
  mkSupport (tickets sd) (sessions_active sd) (Some c) now src.

(** [currentData.sessions.escalated || 0] *)
Definition escalated_or_0 (sd : SupportData) : Z :=
  default 0%Z (sessions_escalated sd).

(** [sendImmediateAlert(type, data)]: the audit write to "critical-alerts"
    is started and not awaited; it never fails the caller. *)
Definition sendImmediateAlert (type cid : string) : M unit :=
  modify (fun s => set_critical_alerts (critical_alerts s ++ [mkAlert type cid]) s).

(** ** Counter maintenance *)

Definition incrementEscalatedSessions (now : nat) : M unit :=
  try_catch
    (await! log_only in
     let! doc := gets support in
     match doc with
     | Some sd =>
         let currentCount := escalated_or_0 sd in
         modify (set_support
           (Some (with_escalated (currentCount + 1) now "webhook-escalation" sd)))
     | None =>
         await! log_only in
         throw "Support data document not found"
     end)
    (fun e => await! log_only in throw e).

Definition decrementEscalatedSessions (now : nat) : M unit :=
  try_catch
    (let! doc := gets support in
     match doc with
     | Some sd =>
         let currentCount := escalated_or_0 sd in
         let newCount := Z.max 0 (currentCount - 1) in
         modify (set_support (Some (with_escalated newCount now "webhook-closure" sd)))
     | None => ret tt
     end)
    (fun _ => log_only).

(** [resetEscalations] (HTTP endpoint). *)
Definition resetEscalations (now : nat) : M unit :=
  let! doc := gets support in
  match doc with
  | Some sd => modify (set_support (Some (with_escalated 0 now "manual-reset" sd)))
  | None => ret tt
  end.

(** The query [where("escalated", "==", true).where("escalationCounted",
    "==", true)] of [recalculateEscalations], and its size. *)
Definition counts_as_active (d : ConvDoc) : bool :=
  strictly_true (escalated d) && strictly_true (escalationCounted d).

Definition active_escalations (m : gmap string ConvDoc) : nat :=
  size (filter (fun kv => counts_as_active kv.2 = true) m).

(** [recalculateEscalations] (HTTP endpoint). *)
Definition recalculateEscalations (now : nat) : M unit :=
  let! escalationCount := gets (fun s => active_escalations (conversations s)) in
  let! doc := gets support in
  match doc with
  | Some sd =>
      modify (set_support
        (Some (with_escalated (Z.of_nat escalationCount) now "recalculated" sd)))
  | None => ret tt
  end.

(** ** The race-history fallback query *)

(** Firestore's [==] on the stored [objectId] field is typed: a number
    matches a number only, and the [NaN] of a failed [parseInt] matches no
    stored id. *)
Definition objectId_eq_number (o : ObjId) (q : option Z) : bool :=
  match o, q with
  | ONum n, Some z => Z.eqb (Z.of_nat n) z
  | _, _ => false
  end.

(** [orderBy("timestamp", "desc")]; documents with equal time stamps come
    out in one fixed order. *)
Definition newer_or_same (a b : LoggedEvent) : Prop :=
  le_timestamp b <= le_timestamp a.

#[export] Instance newer_or_same_dec : RelDecision newer_or_same :=
  fun a b => decide (le_timestamp b <= le_timestamp a).

(** [.where("objectId", "==", q).where("propertyName", "==", "assignedTo")] *)
Definition assignment_history (q : option Z) (l : list LoggedEvent)
  : list LoggedEvent :=
  List.filter (fun le =>
    objectId_eq_number (objectId (le_event le)) q &&
    is_str (propertyName (le_event le)) "assignedTo") l.

(** [... .orderBy("timestamp", "desc").limit(10)] *)
Definition recent_assignment_events (q : option Z) (l : list LoggedEvent)
  : list LoggedEvent :=
  firstn 10 (merge_sort newer_or_same (assignment_history q l)).

(** The loop over the query result: the first event whose assignee is a
    configured bot. *)
Fixpoint first_bot_assignee (bots : list string) (l : list LoggedEvent)
  : option string :=
  match l with
  | [] => None
  | le :: r =>
      match propertyValue (le_event le) with
      | Some v => if truthy (Some v) && includes bots v then Some v
                  else first_bot_assignee bots r
      | None => first_bot_assignee bots r
      end
  end.

Definition checkRecentBotAssignment (bots : list string) (conversationId : string)
  : M (option string) :=
  try_catch
    (await! log_only in
     let numericConversationId := parseInt conversationId in
     let! evs := gets webhook_events in
     let recentEvents := recent_assignment_events numericConversationId evs in
     ret (first_bot_assignee bots recentEvents))
    (fun _ => await! log_only in ret None).

(** ** The escalation detector *)

(** The human-assignment branch once [isEscalation] and [escalatedFrom]
    are known. *)
Definition record_assignment (cid h : string) (isEscalation : bool)
    (escalatedFrom : string) (now : nat) : M unit :=
  if isEscalation then
    await! sendImmediateAlert "escalation" cid in
    await! try_catch (incrementEscalatedSessions now)
                     (fun e => await! log_only in throw e) in
    try_catch (conv_merge cid (escalation_fields h escalatedFrom now))
              (fun e => await! log_only in throw e)
  else
    try_catch (conv_merge cid (human_fields h now))
              (fun e => await! log_only in throw e).

(** [isEscalation] and [escalatedFrom] computed from an existing
    conversation document. *)
Definition escalation_from_doc (bots : list string) (d : ConvDoc) : bool * string :=
  let previousAssignee := currentAssignee d in
  let hasBot := default false (hasBotAssignment d) in
  if (truthy previousAssignee && includes bots (default "" previousAssignee))
     || hasBot
  then (true, if truthy previousAssignee then default "" previousAssignee
              else "unknown-bot")
  else (false, "").

(** Steps (a)-(c) of the human-assignment branch: load the conversation
    and decide [isEscalation] and [escalatedFrom]. *)
Definition decide_escalation (bots : list string) (conversationId : string)
  : M (bool * string) :=
  let! conversationDoc :=
    try_catch (conv_get conversationId)
              (fun e => await! log_only in throw e) in
  match conversationDoc with
  | Some d => ret (escalation_from_doc bots d)
  | None =>
      let! recent :=
        try_catch (checkRecentBotAssignment bots conversationId)
                  (fun e => await! log_only in throw e) in
      match recent with
      | Some b => if truthy (Some b) then ret (true, b) else ret (false, "")
      | None => ret (false, "")
      end
  end.

Definition checkForBotEscalation (bots : list string) (now : nat)
    (event : WebhookEvent) : M unit :=
  let conversationId := js_String (objectId event) in
  let propertyValue := propertyValue event in
  try_catch
    (await! log_only in
     let configuredBotIds := bots in
     match configuredBotIds with
     | [] => log_only  (* logger.warn: detection disabled *)
     | _ :: _ =>
       match propertyValue with
       | Some a =>
         if truthy (Some a) && includes configuredBotIds a then
           try_catch (conv_merge conversationId (bot_fields a now))
                     (fun e => await! log_only in throw e)
         else if truthy (Some a) && negb (includes configuredBotIds a) then
           let! decision := decide_escalation configuredBotIds conversationId in
           record_assignment conversationId a (fst decision) (snd decision) now
         else ret tt
       | None => ret tt
       end
     end)
    (fun _ => log_only).

(** ** Closure *)

Definition handleConversationClosure (now : nat) (conversationId : string) : M unit :=
  try_catch
    (let! conversationDoc := conv_get conversationId in
     match conversationDoc with
     | Some d =>
         if strictly_true (escalated d) then
           await! log_only in
           await! decrementEscalatedSessions now in
           conv_update conversationId (closed_counted_fields now)
         else
           conv_update conversationId (closed_fields now)
     | None => ret tt
     end)
    (fun _ => log_only).

(** ** Webhook ingress *)

Definition storeWebhookEvent (now : nat) (event : WebhookEvent) : M unit :=
  try_catch
    (modify (fun s => set_webhook_events (webhook_events s ++ [mkLogged event now]) s))
    (fun _ => log_only).

Definition handleConversationEvent (bots : list string) (now : nat)
    (event : WebhookEvent) : M unit :=
  let cid := js_String (objectId event) in
  try_catch
    (await! log_only in
     await! (if String.eqb (subscriptionType event) "conversation.creation"
             then sendImmediateAlert "new_chat" cid else ret tt) in
     await! (if is_str (propertyName event) "status" then
               await! log_only in
               if is_str (propertyValue event) "CLOSED" then
                 await! sendImmediateAlert "closure" cid in
                 handleConversationClosure now cid
               else ret tt
             else ret tt) in
     await! (if is_str (propertyName event) "assignedTo" then
               await! log_only in
               checkForBotEscalation bots now event
             else ret tt) in
     (* [hubspotAccessToken.value()] is empty: no data refresh *)
     ret tt)
    (fun _ => log_only).

Definition is_ticket_event (event : WebhookEvent) : bool :=
  String.eqb (subscriptionType event) "ticket.creation"
  || (String.eqb (subscriptionType event) "ticket.propertyChange"
      && is_str (propertyName event) "hs_pipeline_stage").

Definition is_conversation_event (event : WebhookEvent) : bool :=
  String.eqb (subscriptionType event) "conversation.creation"
  || String.eqb (subscriptionType event) "conversation.propertyChange".

Definition processWebhookEvent (bots : list string) (now : nat)
    (event : WebhookEvent) : M unit :=
  try_catch
    (await! log_only in
     await! storeWebhookEvent now event in
     (* [handleTicketEvent] only refreshes when a token is configured *)
     await! (if is_ticket_event event then log_only else ret tt) in
     if is_conversation_event event then handleConversationEvent bots now event
     else ret tt)
    (fun _ => log_only).

(** The store after one event, and after a batch processed in order (the
    [for ... of events] loop of [hubspotWebhook]); the [nat] is the clock
    value at which each event is received. *)
Definition step (bots : list string) (s : Store) (ev : nat * WebhookEvent) : Store :=
  snd (processWebhookEvent bots (fst ev) (snd ev) s).

Definition run (bots : list string) (evs : list (nat * WebhookEvent)) (s : Store) : Store :=
  fold_left (step bots) evs s.

(** The aggregate counter field [sessions.escalated]. *)
Definition escalated_count (s : Store) : option Z :=
  match support s with
  | Some sd => sessions_escalated sd
  | None => None
  end.

(** Events of the scenarios. *)
Definition assign_event (o : ObjId) (a : string) : WebhookEvent :=
  mkEvent "conversation.propertyChange" (Some "assignedTo") (Some a) o.

Definition status_event (o : ObjId) (v : string) : WebhookEvent :=
  mkEvent "conversation.propertyChange" (Some "status") (Some v) o.

(** The store once [storeWebhookEvent] has appended an event. *)
Definition log_event (now : nat) (ev : WebhookEvent) (s : Store) : Store :=
  set_webhook_events (webhook_events s ++ [mkLogged ev now]) s.

(** The store once [sendImmediateAlert] has queued an alert. *)
Definition add_alert (type cid : string) (s : Store) : Store :=
  set_critical_alerts (critical_alerts s ++ [mkAlert type cid]) s.

(** The decision of [decide_escalation] as a function of the store it
    reads. *)
Definition escalation_decision (bots : list string) (cid : string) (s : Store)
  : bool * string :=
  match conversations s !! cid with
  | Some d => escalation_from_doc bots d
  | None =>
      match first_bot_assignee bots
              (recent_assignment_events (parseInt cid) (webhook_events s)) with
      | Some b => if truthy (Some b) then (true, b) else (false, "")
      | None => (false, "")
      end
  end.

(** ** Operations on the aggregate counter *)

(** Everything that writes [sessions.escalated] in the modelled
    configuration: a webhook event, a replay of one assignment through the
    detector ([manualEscalationProcess]), and the two administrative
    endpoints. *)
Inductive Operation :=
| OpWebhook (now : nat) (event : WebhookEvent)
| OpReplay (now : nat) (event : WebhookEvent)
| OpReset (now : nat)
| OpRecalculate (now : nat).

Definition perform (bots : list string) (s : Store) (op : Operation) : Store :=
  match op with
  | OpWebhook now ev => step bots s (now, ev)
  | OpReplay now ev => snd (checkForBotEscalation bots now ev s)
  | OpReset now => snd (resetEscalations now s)
  | OpRecalculate now => snd (recalculateEscalations now s)
  end.

(** [sessions.escalated >= 0] whenever the counter holds a number. *)
Definition counter_nonneg (s : Store) : Prop :=
  forall z, escalated_count s = Some z -> (0 <= z)%Z.

(** A computation that keeps [counter_nonneg]. *)
Definition preserves {A} (m : M A) : Prop :=
  forall s, counter_nonneg s -> counter_nonneg (snd (m s)).

(** ** Sample stores *)

Definition support_with (c : Z) : SupportData :=
  mkSupport (mkTickets 0 0 0 0) (Some 0%Z) (Some c) 0 "recalculated".

Definition store_with (convs : gmap string ConvDoc) (counter : option SupportData)
    (log : list LoggedEvent) : Store :=
  mkStore convs counter log [].

(** A conversation escalated from [from] to [h] and still open. *)
Definition escalated_open (h from : string) : ConvDoc :=
  escalation_fields h from 2 empty_conv.

(** A conversation whose current assignee is the bot [b]. *)
Definition bot_owned (b : string) : ConvDoc := bot_fields b 1 empty_conv.

(** ** Configuration: [getBotAgentIds] *)

(** [s.split(",")]: the pieces between commas, empty ones included. *)
Fixpoint split_comma_acc (s : string) (cur : string) : list string :=
  match s with
  | EmptyString => [cur]
  | String c r =>
      if Ascii.eqb c ","%char then cur :: split_comma_acc r ""
      else split_comma_acc r (cur ++ String c EmptyString)
  end.

Definition split_comma (s : string) : list string := split_comma_acc s "".

(** [TrimString(s, end)]: cut the string where the rest is only white
    space. *)
Fixpoint trim_end (s : string) : string :=
  match s with
  | String c r => if String.eqb (skip_space s) "" then "" else String c (trim_end r)
  | EmptyString => EmptyString
  end.

(** [s.trim()] *)
Definition trim (s : string) : string := trim_end (skip_space s).

(** No character of the string is white space. *)
Fixpoint no_js_space (s : string) : bool :=
  match s with
  | String c r => negb (starts_with_space s) && no_js_space r
  | EmptyString => true
  end.

(** [getBotAgentIds()]: [None] is an unset parameter (or a failed read,
    which the code also maps to the empty list). *)
Definition getBotAgentIds (botIdsValue : option string) : list string :=
  match botIdsValue with
  | Some v => if String.eqb v "" then [] else map trim (split_comma v)
  | None => []
  end.

(** ** [getWebhookPayloads]: the page size *)

(** [parseInt(s)] without a radix: after the sign, a leading "0x" or "0X"
    selects hexadecimal, otherwise the digits are decimal. *)
Definition hex_digit_of (c : ascii) : option nat :=
  match digit_of c with
  | Some d => Some d
  | None =>
      let k := nat_of_ascii c in
      if Nat.leb 97 k && Nat.leb k 102 then Some (k - 87)%nat
      else if Nat.leb 65 k && Nat.leb k 70 then Some (k - 55)%nat
      else None
  end.

Fixpoint hex_digits_acc (s : string) (acc : nat) : nat :=
  match s with
  | String c r =>
      match hex_digit_of c with
      | Some d => hex_digits_acc r (16 * acc + d)
      | None => acc
      end
  | EmptyString => acc
  end.

Definition parse_hex (s : string) : option nat :=
  match s with
  | String c r =>
      match hex_digit_of c with
      | Some d => Some (hex_digits_acc r d)
      | None => None
      end
  | EmptyString => None
  end.

Definition parse_unsigned_auto (s : string) : option nat :=
  match s with
  | String c (String x r) =>
      if Ascii.eqb c "0" && (Ascii.eqb x "x" || Ascii.eqb x "X") then parse_hex r
      else parse_unsigned s
  | _ => parse_unsigned s
  end.

Definition parseInt_auto (s : string) : option Z :=
  match skip_space s with
  | String "-"%char r => option_map (fun n => (- Z.of_nat n)%Z) (parse_unsigned_auto r)
  | String "+"%char r => option_map Z.of_nat (parse_unsigned_auto r)
  | s' => option_map Z.of_nat (parse_unsigned_auto s')
  end.

(** [Math.min(parseInt(req.query.limit as string) || 20, 100)]; an absent
    query parameter is [undefined], whose [parseInt] is [NaN].  The parsed
    value is kept exact: it is the JavaScript number for magnitudes up to
    2^53, and above that the cap at 100 gives the same page size for every
    positive value. *)
Definition payload_limit (query_limit : option string) : Z :=
  let limit :=
    match parseInt_auto (default "undefined" query_limit) with
    | Some z => if Z.eqb z 0 then 20%Z else z
    | None => 20%Z
    end in
  Z.min limit 100.

(** ** [getEscalatedSessions] *)

(** The age filter: a conversation whose [lastUpdated] is older than 24
    hours before [now] (clock values in milliseconds) is left out; one
    without [lastUpdated] is kept. *)
Definition recent_enough (now : nat) (d : ConvDoc) : bool :=
  match lastUpdated d with
  | Some t => negb (Z.ltb (Z.of_nat t) (Z.of_nat now - 24 * 60 * 60 * 1000))
  | None => true
  end.

(** The count of the query [escalated == true, escalationCounted == true]
    kept by the filter [status === "OPEN"] and the age filter. *)
Definition open_recent_escalation (now : nat) (d : ConvDoc) : bool :=
  counts_as_active d && is_str (status d) "OPEN" && recent_enough now d.

Definition getEscalatedSessions (now : nat) (m : gmap string ConvDoc) : nat :=
  size (filter (fun kv => open_recent_escalation now kv.2 = true) m).

(** ** The "webhook-payloads" collection *)

Record Payload := mkPayload { p_id : nat; p_timestamp : nat }.

Definition payload_newer_or_same (a b : Payload) : Prop :=
  p_timestamp b <= p_timestamp a.

#[export] Instance payload_newer_or_same_dec : RelDecision payload_newer_or_same :=
  fun a b => decide (p_timestamp b <= p_timestamp a).

(** [for (let i = 0; i < l.length; i += batchSize) l.slice(i, i + batchSize)];
    [fuel] bounds the number of rounds. *)
Fixpoint batch_slices {A} (fuel : nat) (batchSize i : nat) (l : list A)
  : list (list A) :=
  match fuel with
  | 0 => []
  | S fuel' =>
      if Nat.ltb i (length l)
      then firstn batchSize (skipn i l) :: batch_slices fuel' batchSize (i + batchSize) l
      else []
  end.

(** [cleanupOldWebhookPayloads()]: order by [timestamp] descending, and if
    there are more than 100, delete everything after the first 100, in
    batches of 500. *)
Definition cleanupOldWebhookPayloads (payloads : list Payload) : list Payload :=
  let allPayloads := merge_sort payload_newer_or_same payloads in
  if Nat.ltb 100 (length allPayloads) then
    let payloadsToDelete := skipn 100 allPayloads in
    let deleted :=
      map p_id (concat (batch_slices (length payloadsToDelete) 500 0 payloadsToDelete)) in
    List.filter (fun p => negb (existsb (Nat.eqb (p_id p)) deleted)) payloads
  else payloads.

(** [storeWebhookPayload(req)]: add the payload, then clean up when
    [Math.random() < 0.1] came out true. *)
Definition storeWebhookPayload (cleanup_drawn : bool) (p : Payload)
    (payloads : list Payload) : list Payload :=
  let stored := (payloads ++ [p])%list in
  if cleanup_drawn then cleanupOldWebhookPayloads stored else stored.

(** ** [clearAllConversationData] (HTTP endpoint) *)

(** [where("timestamp", "<", oneDayAgo)]: an event received more than 24
    hours before [now]. *)
Definition older_than_a_day (now : nat) (le : LoggedEvent) : bool :=
  Z.ltb (Z.of_nat (le_timestamp le)) (Z.of_nat now - 24 * 60 * 60 * 1000).

(** With no conversation it returns at once; otherwise it deletes every
    conversation and every event older than a day, and writes zeros to
    "support-data/current", a collection that no function reads and that
    is not the "support/current" counter. *)
Definition clearAllConversationData (now : nat) (s : Store) : Store :=
  if decide (conversations s = ∅) then s
  else set_webhook_events
         (List.filter (fun le => negb (older_than_a_day now le)) (webhook_events s))
         (set_conversations ∅ s).

(** ** Frame relations *)

(** [m] relates the store before it to the store after it by [R],
    whatever it returns or throws. *)
Definition stays (R : Store -> Store -> Prop) {A} (m : M A) : Prop :=
  forall s, R s (snd (m s)).

(** The event log is untouched. *)
Definition same_log (s s' : Store) : Prop := webhook_events s' = webhook_events s.

(** The document of conversation [cid] is untouched. *)
Definition same_conv (cid : string) (s s' : Store) : Prop :=
  conversations s' !! cid = conversations s !! cid.

(** The shape of a conversation document that the writers keep: a counted
    conversation is escalated, and an escalated one has had a bot and
    records when, from whom and to whom it was escalated. *)
Definition conv_ok (d : ConvDoc) : Prop :=
  (escalationCounted d = Some true -> escalated d = Some true) /\
  (escalated d = Some true ->
     hasBotAssignment d = Some true /\ escalatedAt d <> None /\
     escalatedFrom d <> None /\ escalatedTo d <> None).

Definition convs_ok (s : Store) : Prop :=
  map_Forall (fun _ d => conv_ok d) (conversations s).

Definition keeps_convs_ok (s s' : Store) : Prop := convs_ok s -> convs_ok s'.

(** * Properties *)

(** ** Evaluation lemmas *)

Lemma checkForBotEscalation_ok bots now ev s :
  fst (checkForBotEscalation bots now ev s) = Ok tt.
Proof.
  unfold checkForBotEscalation at 1, try_catch at 1.
  match goal with |- fst (match ?m with _ => _ end) = _ =>
    destruct m as [[[] | e] s'] end; reflexivity.
Qed.

Lemma handleConversationClosure_ok now cid s :
  fst (handleConversationClosure now cid s) = Ok tt.
Proof.
  unfold handleConversationClosure at 1, try_catch at 1.
  match goal with |- fst (match ?m with _ => _ end) = _ =>
    destruct m as [[[] | e] s'] end; reflexivity.
Qed.

Lemma step_assignment bots s now o pv :
  step bots s (now, mkEvent "conversation.propertyChange" (Some "assignedTo") pv o) =
  snd (checkForBotEscalation bots now
         (mkEvent "conversation.propertyChange" (Some "assignedTo") pv o)
         (log_event now (mkEvent "conversation.propertyChange" (Some "assignedTo") pv o) s)).
Proof.
  unfold step, processWebhookEvent, handleConversationEvent, storeWebhookEvent,
    sendImmediateAlert, log_event, add_alert, try_catch, bind, log_only, ret,
    modify; cbn.
  match goal with |- context [checkForBotEscalation ?b ?n ?e ?s1] =>
    pose proof (checkForBotEscalation_ok b n e s1) as Hok;
    destruct (checkForBotEscalation b n e s1) as [r s2]; cbn in Hok; subst r
  end.
  reflexivity.
Qed.

Lemma step_closed bots s now o :
  step bots s (now, status_event o "CLOSED") =
  snd (handleConversationClosure now (js_String o)
         (add_alert "closure" (js_String o) (log_event now (status_event o "CLOSED") s))).
Proof.
  unfold step, processWebhookEvent, handleConversationEvent, storeWebhookEvent,
    sendImmediateAlert, log_event, add_alert, try_catch, bind, log_only, ret,
    modify; cbn.
  match goal with |- context [handleConversationClosure ?n ?c ?s1] =>
    pose proof (handleConversationClosure_ok n c s1) as Hok;
    destruct (handleConversationClosure n c s1) as [r s2]; cbn in Hok; subst r
  end.
  reflexivity.
Qed.

Lemma decide_escalation_eval bots cid s :
  decide_escalation bots cid s = (Ok (escalation_decision bots cid s), s).
Proof.
  unfold decide_escalation, escalation_decision, conv_get, checkRecentBotAssignment,
    try_catch, bind, gets, ret, log_only; cbn.
  destruct (conversations s !! cid) as [d|]; [reflexivity|].
  destruct (first_bot_assignee _ _) as [b|]; [|reflexivity].
  destruct (negb (b =? "")); reflexivity.
Qed.

Lemma truthy_nonempty a : a <> "" -> truthy (Some a) = true.
Proof.
  intros Ha. unfold truthy. apply String.eqb_neq in Ha. now rewrite Ha.
Qed.

Lemma checkForBotEscalation_no_bots now ev s :
  checkForBotEscalation [] now ev s = (Ok tt, s).
Proof. reflexivity. Qed.

Lemma checkForBotEscalation_bot bots now o a s :
  bots <> [] -> a <> "" -> includes bots a = true ->
  checkForBotEscalation bots now (assign_event o a) s =
  (Ok tt, set_conversations
            (<[js_String o := bot_fields a now
                 (default empty_conv (conversations s !! js_String o))]>
               (conversations s)) s).
Proof.
  intros Hb Ha Hinc.
  destruct bots as [|b0 bs]; [congruence|].
  unfold checkForBotEscalation, assign_event, conv_merge, try_catch, bind,
    log_only, ret, modify; cbn -[includes truthy].
  rewrite (truthy_nonempty a Ha), Hinc. reflexivity.
Qed.

Lemma checkForBotEscalation_human bots now o a s :
  bots <> [] -> a <> "" -> includes bots a = false ->
  checkForBotEscalation bots now (assign_event o a) s =
  (Ok tt, snd (record_assignment (js_String o) a
                 (fst (escalation_decision bots (js_String o) s))
                 (snd (escalation_decision bots (js_String o) s)) now s)).
Proof.
  intros Hb Ha Hinc.
  destruct bots as [|b0 bs]; [congruence|].
  unfold checkForBotEscalation, assign_event at 1.
  unfold try_catch at 1, bind at 1 2, log_only at 1, ret at 1; cbn -[includes truthy decide_escalation record_assignment].
  rewrite (truthy_nonempty a Ha), Hinc; cbn -[decide_escalation record_assignment].
  unfold bind at 1. rewrite decide_escalation_eval.
  destruct (record_assignment _ _ _ _ _ _) as [[[]|e] s']; reflexivity.
Qed.

Lemma record_assignment_escalation cid h f now s sd :
  support s = Some sd ->
  record_assignment cid h true f now s =
  (Ok tt,
   set_conversations
     (<[cid := escalation_fields h f now
                 (default empty_conv (conversations s !! cid))]> (conversations s))
     (set_support (Some (with_escalated (escalated_or_0 sd + 1) now
                           "webhook-escalation" sd))
        (add_alert "escalation" cid s))).
Proof.
  intros Hs.
  unfold record_assignment, incrementEscalatedSessions, sendImmediateAlert,
    conv_merge, add_alert, try_catch, bind, gets, log_only, ret, modify; cbn.
  rewrite Hs. reflexivity.
Qed.

Lemma record_assignment_no_counter cid h f now s :
  support s = None ->
  record_assignment cid h true f now s =
  (Thrown "Support data document not found", add_alert "escalation" cid s).
Proof.
  intros Hs.
  unfold record_assignment, incrementEscalatedSessions, sendImmediateAlert,
    add_alert, try_catch, bind, gets, log_only, ret, throw, modify; cbn.
  rewrite Hs. reflexivity.
Qed.

Lemma record_assignment_plain cid h f now s :
  record_assignment cid h false f now s =
  (Ok tt,
   set_conversations
     (<[cid := human_fields h now (default empty_conv (conversations s !! cid))]>
        (conversations s)) s).
Proof. reflexivity. Qed.

Lemma handleConversationClosure_escalated now cid s d sd :
  conversations s !! cid = Some d -> strictly_true (escalated d) = true ->
  support s = Some sd ->
  handleConversationClosure now cid s =
  (Ok tt,
   set_conversations (<[cid := closed_counted_fields now d]> (conversations s))
     (set_support (Some (with_escalated (Z.max 0 (escalated_or_0 sd - 1)) now
                           "webhook-closure" sd)) s)).
Proof.
  intros Hd He Hs.
  unfold handleConversationClosure, decrementEscalatedSessions, conv_get,
    conv_update, try_catch, bind, gets, log_only, ret, modify; cbn.
  rewrite Hd, He; cbn. rewrite Hs; cbn. rewrite Hd. reflexivity.
Qed.

Lemma step_assign bots s now o a :
  step bots s (now, assign_event o a) =
  snd (checkForBotEscalation bots now (assign_event o a)
         (log_event now (assign_event o a) s)).
Proof. apply step_assignment. Qed.

Lemma checkForBotEscalation_unassigned bots now o s :
  checkForBotEscalation bots now (assign_event o "") s = (Ok tt, s).
Proof. destruct bots; reflexivity. Qed.

Lemma assignment_history_app q l1 l2 :
  assignment_history q (l1 ++ l2) = (assignment_history q l1 ++ assignment_history q l2)%list.
Proof. unfold assignment_history. apply List.filter_app. Qed.

(** The fallback sees only the event being processed: it finds no bot
    when that event is a human assignment. *)
Lemma recent_bot_only_self bots q l o h now :
  assignment_history q l = [] -> includes bots h = false ->
  first_bot_assignee bots
    (recent_assignment_events q (l ++ [mkLogged (assign_event o h) now])%list) = None.
Proof.
  intros Hl Hh. unfold recent_assignment_events.
  rewrite assignment_history_app, Hl. cbn.
  destruct (objectId_eq_number o q); cbn; [|reflexivity].
  rewrite Hh, andb_false_r. reflexivity.
Qed.

(** ** The counter invariant, operation by operation *)

Lemma preserves_ret {A} (a : A) : preserves (ret a).
Proof. intros s H. exact H. Qed.

Lemma preserves_throw {A} e : preserves (@throw A e).
Proof. intros s H. exact H. Qed.

Lemma preserves_gets {A} (f : Store -> A) : preserves (gets f).
Proof. intros s H. exact H. Qed.

Lemma preserves_bind {A B} (m : M A) (k : A -> M B) :
  preserves m -> (forall a, preserves (k a)) -> preserves (bind m k).
Proof.
  intros Hm Hk s H. unfold bind.
  specialize (Hm s H). destruct (m s) as [[a|e] s'] eqn:E; cbn in *.
  - exact (Hk a s' Hm).
  - exact Hm.
Qed.

Lemma preserves_try_catch {A} (m : M A) h :
  preserves m -> (forall e, preserves (h e)) -> preserves (try_catch m h).
Proof.
  intros Hm Hh s H. unfold try_catch.
  specialize (Hm s H). destruct (m s) as [[a|e] s'] eqn:E; cbn in *.
  - exact Hm.
  - exact (Hh e s' Hm).
Qed.

Lemma preserves_modify_frame f :
  (forall s, support (f s) = support s) -> preserves (modify f).
Proof.
  intros Hf s H z. unfold modify, escalated_count in *; cbn. rewrite Hf. apply H.
Qed.

Lemma preserves_conv_merge cid fields : preserves (conv_merge cid fields).
Proof. apply preserves_modify_frame. reflexivity. Qed.

Lemma preserves_conv_update cid fields : preserves (conv_update cid fields).
Proof.
  intros s H z. unfold conv_update.
  destruct (conversations s !! cid); exact (H z).
Qed.

Lemma preserves_alert type cid : preserves (sendImmediateAlert type cid).
Proof. apply preserves_modify_frame. reflexivity. Qed.

Lemma preserves_store_event now ev : preserves (storeWebhookEvent now ev).
Proof.
  apply preserves_try_catch; [apply preserves_modify_frame; reflexivity|].
  intros; apply preserves_ret.
Qed.

Lemma escalated_or_0_nonneg s sd :
  counter_nonneg s -> support s = Some sd -> (0 <= escalated_or_0 sd)%Z.
Proof.
  intros H Hs. unfold escalated_or_0.
  destruct (sessions_escalated sd) as [z|] eqn:Ez; cbn; [|lia].
  apply H. unfold escalated_count. now rewrite Hs.
Qed.

Lemma preserves_increment now : preserves (incrementEscalatedSessions now).
Proof.
  intros s H. unfold incrementEscalatedSessions, try_catch, bind, gets, log_only,
    ret, throw, modify; cbn.
  destruct (support s) as [sd|] eqn:Hs; cbn; [|exact H].
  intros z Hz. unfold escalated_count in Hz; cbn in Hz. injection Hz as <-.
  pose proof (escalated_or_0_nonneg s sd H Hs). lia.
Qed.

Lemma decrement_clamps now s sd :
  support s = Some sd ->
  escalated_count (snd (decrementEscalatedSessions now s)) =
  Some (Z.max 0 (escalated_or_0 sd - 1)).
Proof.
  intros Hs. unfold decrementEscalatedSessions, try_catch, bind, gets, ret, modify; cbn.
  rewrite Hs. reflexivity.
Qed.

Lemma preserves_decrement now : preserves (decrementEscalatedSessions now).
Proof.
  intros s H z. destruct (support s) as [sd|] eqn:Hs.
  - rewrite (decrement_clamps now s sd Hs). intros Hz; injection Hz as <-. lia.
  - unfold decrementEscalatedSessions, try_catch, bind, gets, ret; cbn.
    rewrite Hs. apply H.
Qed.

Lemma preserves_reset now : preserves (resetEscalations now).
Proof.
  intros s H z. unfold resetEscalations, bind, gets, ret, modify; cbn.
  destruct (support s); cbn; [|apply H].
  intros Hz. unfold escalated_count in Hz; cbn in Hz. injection Hz as <-. lia.
Qed.

Lemma preserves_recalculate now : preserves (recalculateEscalations now).
Proof.
  intros s H z. unfold recalculateEscalations, bind, gets, ret, modify; cbn.
  destruct (support s); cbn; [|apply H].
  intros Hz. unfold escalated_count in Hz; cbn in Hz. injection Hz as <-. lia.
Qed.

Create HintDb counter_inv.
#[export] Hint Resolve preserves_ret preserves_throw preserves_gets
  preserves_conv_merge preserves_conv_update preserves_alert
  preserves_store_event preserves_increment preserves_decrement
  preserves_reset preserves_recalculate : counter_inv.

Ltac preserves_tac :=
  repeat first
    [ solve [eauto with counter_inv]
    | progress cbv zeta
    | apply preserves_bind; intros
    | apply preserves_try_catch; intros
    | match goal with
      | |- preserves (match ?x with _ => _ end) => destruct x
      | |- preserves (if ?b then _ else _) => destruct b
      end ].

Lemma preserves_checkRecentBotAssignment bots cid :
  preserves (checkRecentBotAssignment bots cid).
Proof. unfold checkRecentBotAssignment, log_only. preserves_tac. Qed.

Lemma preserves_checkForBotEscalation bots now ev :
  preserves (checkForBotEscalation bots now ev).
Proof.
  pose proof (preserves_checkRecentBotAssignment bots).
  unfold checkForBotEscalation, decide_escalation, record_assignment, log_only.
  preserves_tac.
Qed.

Lemma preserves_handleConversationClosure now cid :
  preserves (handleConversationClosure now cid).
Proof. unfold handleConversationClosure, log_only. preserves_tac. Qed.

Lemma preserves_processWebhookEvent bots now ev :
  preserves (processWebhookEvent bots now ev).
Proof.
  pose proof (preserves_checkForBotEscalation bots now ev).
  pose proof (preserves_handleConversationClosure now).
  unfold processWebhookEvent, handleConversationEvent, log_only.
  preserves_tac.
Qed.

Lemma perform_preserves bots s op :
  counter_nonneg s -> counter_nonneg (perform bots s op).
Proof.
  destruct op; cbn; unfold step.
  - apply preserves_processWebhookEvent.
  - apply preserves_checkForBotEscalation.
  - apply preserves_reset.
  - apply preserves_recalculate.
Qed.

(** ** Closure steps *)

Lemma closure_step bots st o now d sd :
  conversations st !! js_String o = Some d -> escalated d = Some true ->
  support st = Some sd ->
  conversations (step bots st (now, status_event o "CLOSED")) !! js_String o =
    Some (closed_counted_fields now d) /\
  support (step bots st (now, status_event o "CLOSED")) =
    Some (with_escalated (Z.max 0 (escalated_or_0 sd - 1)) now "webhook-closure" sd).
Proof.
  intros Hd He Hs. rewrite step_closed.
  rewrite (handleConversationClosure_escalated now _ _ d sd)
    by (cbn; rewrite ?He; assumption || reflexivity).
  cbn. rewrite lookup_insert_eq. auto.
Qed.

Lemma run_closures_cons bots st o t ts :
  run bots (map (fun t => (t, status_event o "CLOSED")) (t :: ts)) st =
  run bots (map (fun t => (t, status_event o "CLOSED")) ts)
    (step bots st (t, status_event o "CLOSED")).
Proof. reflexivity. Qed.

(** * The claims *)

(** C1 (the code double-counts): with [BotIds = {"BOT-1"}], the events
    [bot(BOT-1), human(AGENT-7), human(AGENT-9)] of conversation 42
    increment [sessions.escalated] once at the second event and once more
    at the third: the re-assignment between humans is counted as a second
    escalation, because [hasBotAssignment] stays true and nothing checks
    [escalated]. *)
Theorem human_reassignment_counts_twice :
  let s0 := store_with ∅ (Some (support_with 0)) [] in
  let s2 := run ["BOT-1"] [(1, assign_event (ONum 42) "BOT-1");
                           (2, assign_event (ONum 42) "AGENT-7")] s0 in
  let s3 := step ["BOT-1"] s2 (3, assign_event (ONum 42) "AGENT-9") in
  escalated_count s2 = Some 1%Z /\ escalated_count s3 = Some 2%Z.
Proof. vm_compute. split; reflexivity. Qed.

(** C2 (the history fallback misses string ids): a conversation whose
    events carry the string id "42" and arrive human first, with the bot
    assignment already in the event log, ends not escalated and with the
    counter untouched; the same schedule with the numeric id 42 ends
    escalated with the counter incremented once. *)
Theorem human_first_string_id_missed :
  let schedule o :=
    let s0 := store_with ∅ (Some (support_with 0))
                [mkLogged (assign_event o "BOT-1") 1] in
    let s1 := step ["BOT-1"] s0 (2, assign_event o "AGENT-7") in
    snd (checkForBotEscalation ["BOT-1"] 3 (assign_event o "BOT-1") s1) in
  (option_map escalated (conversations (schedule (OStr "42")) !! "42") = Some None /\
   escalated_count (schedule (OStr "42")) = Some 0%Z) /\
  (option_map escalated (conversations (schedule (ONum 42)) !! "42") = Some (Some true) /\
   escalated_count (schedule (ONum 42)) = Some 1%Z).
Proof. vm_compute. repeat split; reflexivity. Qed.

(** C3: with [BotIds = {"BOT-1"}], the events [BOT-1, AGENT-7] for
    conversation "42" (whatever its prior state) leave it with
    [escalated = true], [escalatedFrom = "BOT-1"], [escalatedTo = "AGENT-7"],
    [escalationCounted = true], and add exactly 1 to [sessions.escalated]. *)
Theorem scenario_bot1_agent7 (o : ObjId) (t1 t2 : nat) (st : Store)
    (sd : SupportData) :
  js_String o = "42" -> support st = Some sd ->
  let st' := run ["BOT-1"] [(t1, assign_event o "BOT-1");
                            (t2, assign_event o "AGENT-7")] st in
  (exists d, conversations st' !! "42" = Some d /\ escalated d = Some true /\
     escalatedFrom d = Some "BOT-1" /\ escalatedTo d = Some "AGENT-7" /\
     escalationCounted d = Some true)
  /\ escalated_count st' = Some (escalated_or_0 sd + 1)%Z.
Proof.
  intros Ho Hs st'. subst st'. unfold run; cbn [fold_left].
  rewrite (step_assign _ st), checkForBotEscalation_bot
    by (try discriminate; reflexivity).
  cbn [snd].
  rewrite step_assign, checkForBotEscalation_human
    by (try discriminate; reflexivity).
  rewrite Ho. unfold escalation_decision.
  cbn [conversations log_event set_webhook_events set_conversations].
  rewrite lookup_insert_eq. cbn -[record_assignment].
  rewrite (record_assignment_escalation _ _ _ _ _ sd) by (cbn; exact Hs).
  cbn. rewrite lookup_insert_eq.
  split; [eexists; repeat split; reflexivity|reflexivity].
Qed.

Lemma scenario_bot1_agent7_witness :
  js_String (ONum 42) = "42" /\
  support (store_with ∅ (Some (support_with 5)) []) = Some (support_with 5) /\
  let st' := run ["BOT-1"] [(1, assign_event (ONum 42) "BOT-1");
                            (2, assign_event (ONum 42) "AGENT-7")]
               (store_with ∅ (Some (support_with 5)) []) in
  (exists d, conversations st' !! "42" = Some d /\ escalated d = Some true /\
     escalatedFrom d = Some "BOT-1" /\ escalatedTo d = Some "AGENT-7" /\
     escalationCounted d = Some true)
  /\ escalated_count st' = Some (escalated_or_0 (support_with 5) + 1)%Z.
Proof.
  split; [reflexivity|split; [reflexivity|]].
  apply (scenario_bot1_agent7 (ONum 42) 1 2 _ (support_with 5)); reflexivity.
Defined.

(** C4: when a human assignment is the first event of a conversation (no
    stored state, no earlier assignment in the event log) and a bot
    assignment arrives after it, the conversation ends not escalated and
    the aggregate counter is untouched. *)
Theorem late_bot_no_escalation (bots : list string) (o : ObjId) (h b : string)
    (t1 t2 : nat) (st : Store) :
  includes bots h = false -> includes bots b = true ->
  conversations st !! js_String o = None ->
  assignment_history (parseInt (js_String o)) (webhook_events st) = [] ->
  let st' := run bots [(t1, assign_event o h); (t2, assign_event o b)] st in
  escalated (default empty_conv (conversations st' !! js_String o)) = None /\
  support st' = support st.
Proof.
  intros Hh Hb Hc Hl st'. subst st'. unfold run; cbn [fold_left].
  rewrite (step_assign _ st).
  destruct (decide (bots = [])) as [->|Hne].
  { rewrite checkForBotEscalation_no_bots; cbn [snd].
    rewrite step_assign, checkForBotEscalation_no_bots. cbn. rewrite Hc. auto. }
  (* the store after the human assignment *)
  assert (Hmid : exists s1,
    snd (checkForBotEscalation bots t1 (assign_event o h)
           (log_event t1 (assign_event o h) st)) = s1 /\
    escalated (default empty_conv (conversations s1 !! js_String o)) = None /\
    support s1 = support st).
  { eexists; split; [reflexivity|].
    destruct (String.eqb_spec h "") as [->|Hh'].
    - rewrite checkForBotEscalation_unassigned. cbn. rewrite Hc. auto.
    - rewrite checkForBotEscalation_human by assumption.
      unfold escalation_decision.
      cbn [log_event set_webhook_events conversations webhook_events].
      rewrite Hc, recent_bot_only_self by assumption.
      cbn [fst snd]. rewrite record_assignment_plain.
      cbn. rewrite lookup_insert_eq. cbn. rewrite Hc. auto. }
  destruct Hmid as (s1 & -> & He & Hs).
  rewrite step_assign.
  destruct (String.eqb_spec b "") as [->|Hb'].
  - rewrite checkForBotEscalation_unassigned. cbn. auto.
  - rewrite checkForBotEscalation_bot by assumption.
    cbn. rewrite lookup_insert_eq. cbn. auto.
Qed.

Lemma late_bot_no_escalation_witness :
  includes ["BOT-1"] "AGENT-7" = false /\ includes ["BOT-1"] "BOT-1" = true /\
  conversations (store_with ∅ (Some (support_with 0)) []) !! js_String (ONum 42) = None /\
  assignment_history (parseInt (js_String (ONum 42)))
    (webhook_events (store_with ∅ (Some (support_with 0)) [])) = [] /\
  let st' := run ["BOT-1"] [(1, assign_event (ONum 42) "AGENT-7");
                            (2, assign_event (ONum 42) "BOT-1")]
               (store_with ∅ (Some (support_with 0)) []) in
  escalated (default empty_conv (conversations st' !! js_String (ONum 42))) = None /\
  support st' = support (store_with ∅ (Some (support_with 0)) []).
Proof.
  repeat (split; [reflexivity|]).
  apply (late_bot_no_escalation ["BOT-1"] (ONum 42) "AGENT-7" "BOT-1" 1 2); reflexivity.
Defined.

(** C5: a CLOSED status event for an escalated, open conversation takes 1
    from [sessions.escalated] (never below 0) and sets
    [escalationCounted = false], [status = "CLOSED"] and [closedAt] to the
    current time, keeping [escalated = true]. *)
Theorem closure_of_escalated_open (bots : list string) (o : ObjId) (now : nat)
    (st : Store) (d : ConvDoc) (sd : SupportData) :
  conversations st !! js_String o = Some d -> escalated d = Some true ->
  status d = Some "OPEN" -> support st = Some sd ->
  let st' := step bots st (now, status_event o "CLOSED") in
  escalated_count st' = Some (Z.max 0 (escalated_or_0 sd - 1)) /\
  exists d', conversations st' !! js_String o = Some d' /\
    escalationCounted d' = Some false /\ status d' = Some "CLOSED" /\
    closedAt d' = Some now /\ escalated d' = Some true.
Proof.
  intros Hd He _ Hs st'. subst st'.
  destruct (closure_step bots st o now d sd Hd He Hs) as [Hc Hsup].
  unfold escalated_count. rewrite Hsup, Hc. cbn.
  split; [reflexivity|]. eexists; repeat split; cbn; auto.
Qed.

Lemma closure_of_escalated_open_witness :
  let st := store_with {[ "42" := escalated_open "AGENT-7" "BOT-1" ]}
              (Some (support_with 3)) [] in
  (conversations st !! js_String (ONum 42) = Some (escalated_open "AGENT-7" "BOT-1") /\
   escalated (escalated_open "AGENT-7" "BOT-1") = Some true /\
   status (escalated_open "AGENT-7" "BOT-1") = Some "OPEN" /\
   support st = Some (support_with 3)) /\
  let st' := step ["BOT-1"] st (9, status_event (ONum 42) "CLOSED") in
  escalated_count st' = Some (Z.max 0 (escalated_or_0 (support_with 3) - 1)) /\
  exists d', conversations st' !! js_String (ONum 42) = Some d' /\
    escalationCounted d' = Some false /\ status d' = Some "CLOSED" /\
    closedAt d' = Some 9 /\ escalated d' = Some true.
Proof.
  split; [repeat split; reflexivity|].
  apply (closure_of_escalated_open ["BOT-1"] (ONum 42) 9 _
           (escalated_open "AGENT-7" "BOT-1") (support_with 3)); reflexivity.
Defined.

(** C6: [sessions.escalated] is never negative: from a store where it is
    not negative, any sequence of webhook events, detector replays,
    resets and recalculations keeps it so; every decrement of an existing
    counter yields [max 0 (count - 1)]. *)
Theorem counter_never_negative (bots : list string) (ops : list Operation)
    (s : Store) :
  counter_nonneg s ->
  counter_nonneg (fold_left (perform bots) ops s) /\
  (forall now sd, support s = Some sd ->
     escalated_count (snd (decrementEscalatedSessions now s)) =
     Some (Z.max 0 (escalated_or_0 sd - 1))).
Proof.
  intros H. split.
  - revert s H. induction ops as [|op ops IH]; intros s H; cbn; [exact H|].
    apply IH, perform_preserves, H.
  - intros now sd Hs. apply decrement_clamps, Hs.
Qed.

Lemma counter_never_negative_witness :
  let s := store_with {[ "42" := escalated_open "AGENT-7" "BOT-1" ]}
             (Some (support_with 0)) [] in
  counter_nonneg s /\
  counter_nonneg (fold_left (perform ["BOT-1"])
    [OpWebhook 1 (status_event (ONum 42) "CLOSED");
     OpWebhook 2 (status_event (ONum 42) "CLOSED"); OpReset 3;
     OpRecalculate 4] s) /\
  (forall now sd, support s = Some sd ->
     escalated_count (snd (decrementEscalatedSessions now s)) =
     Some (Z.max 0 (escalated_or_0 sd - 1))).
Proof.
  assert (H0 : counter_nonneg (store_with {[ "42" := escalated_open "AGENT-7" "BOT-1" ]}
                                 (Some (support_with 0)) [])).
  { intros z Hz. vm_compute in Hz. injection Hz as <-. lia. }
  split; [exact H0|]. apply counter_never_negative, H0.
Defined.

(** C7 (counterexample): with an empty bot identifier set, a CLOSED status
    event for an escalated conversation still goes through the closure
    handler, which does not consult the bot identifiers: the counter
    changes from 1 to 0. *)
Lemma no_bots_closure_still_decrements :
  let st := store_with {[ "42" := escalated_open "AGENT-7" "BOT-1" ]}
              (Some (support_with 1)) [] in
  let st' := step [] st (5, status_event (ONum 42) "CLOSED") in
  escalated_count st = Some 1%Z /\ escalated_count st' = Some 0%Z /\
  escalated_count st' <> escalated_count st.
Proof. vm_compute. repeat split; discriminate. Qed.

(** C7 (as amended): with an empty bot identifier set, an assignment-change
    event leaves every conversation document, the aggregate counter and
    the alert log unchanged; its only trace is its own entry in the event
    log. *)
Theorem no_bots_assignment_frame (o : ObjId) (pv : option string) (now : nat)
    (st : Store) :
  let ev := mkEvent "conversation.propertyChange" (Some "assignedTo") pv o in
  let st' := step [] st (now, ev) in
  conversations st' = conversations st /\ support st' = support st /\
  critical_alerts st' = critical_alerts st /\
  webhook_events st' = (webhook_events st ++ [mkLogged ev now])%list.
Proof.
  cbv zeta. rewrite step_assignment, checkForBotEscalation_no_bots.
  cbn. auto.
Qed.


(** C9: closure is guarded by [escalated] only: for a conversation with
    [escalated = true], whatever its status and [escalationCounted], each
    of [n >= 1] successive CLOSED events takes 1 from [sessions.escalated]
    again (never below 0), so the counter ends at [max 0 (count - n)]; the
    conversation stays escalated, closed and not counted. *)
Theorem closures_keep_decrementing (bots : list string) (o : ObjId) (st : Store)
    (d : ConvDoc) (sd : SupportData) (ts : list nat) :
  conversations st !! js_String o = Some d -> escalated d = Some true ->
  support st = Some sd -> ts <> [] ->
  let st' := run bots (map (fun t => (t, status_event o "CLOSED")) ts) st in
  escalated_count st' = Some (Z.max 0 (escalated_or_0 sd - Z.of_nat (length ts))) /\
  exists d', conversations st' !! js_String o = Some d' /\
    escalated d' = Some true /\ status d' = Some "CLOSED" /\
    escalationCounted d' = Some false.
Proof.
  intros Hd He Hs Hts. cbv zeta.
  revert st d sd Hd He Hs.
  induction ts as [|t ts IH]; intros st d sd Hd He Hs; [congruence|].
  rewrite run_closures_cons.
  destruct (closure_step bots st o t d sd Hd He Hs) as [Hc Hsup].
  destruct ts as [|t' ts'].
  - unfold run; cbn [map fold_left]. unfold escalated_count. rewrite Hsup, Hc.
    split; [unfold with_escalated; cbn [sessions_escalated length]; f_equal; lia|].
    eexists; repeat split; cbn; auto.
  - destruct (IH ltac:(discriminate) _ _ _ Hc ltac:(cbn; exact He) Hsup)
      as [Hcount Hdoc].
    split; [|exact Hdoc].
    rewrite Hcount. f_equal.
    unfold escalated_or_0 at 1; cbn [with_escalated sessions_escalated default length].
    unfold id. lia.
Qed.

Lemma closures_keep_decrementing_witness :
  let st := store_with {[ "42" := escalated_open "AGENT-7" "BOT-1" ]}
              (Some (support_with 1)) [] in
  (conversations st !! js_String (ONum 42) = Some (escalated_open "AGENT-7" "BOT-1") /\
   escalated (escalated_open "AGENT-7" "BOT-1") = Some true /\
   support st = Some (support_with 1) /\ [4; 5; 6] <> []) /\
  let st' := run ["BOT-1"] (map (fun t => (t, status_event (ONum 42) "CLOSED")) [4; 5; 6]) st in
  escalated_count st' =
    Some (Z.max 0 (escalated_or_0 (support_with 1) - Z.of_nat (length [4; 5; 6]))) /\
  exists d', conversations st' !! js_String (ONum 42) = Some d' /\
    escalated d' = Some true /\ status d' = Some "CLOSED" /\
    escalationCounted d' = Some false.
Proof.
  split; [repeat split; try reflexivity; discriminate|].
  apply (closures_keep_decrementing ["BOT-1"] (ONum 42) _
           (escalated_open "AGENT-7" "BOT-1") (support_with 1) [4; 5; 6]);
    [reflexivity | reflexivity | reflexivity | discriminate].
Defined.

(** C10: when the detector decides that a human assignment is an
    escalation but the aggregate counter document is missing, the increment
    throws, the detector catches the error and returns normally, and no
    escalation field is written: besides the queued escalation alert, the
    store is the one the detector started from (with the event already in
    the event log). *)
Theorem missing_counter_swallowed (bots : list string) (now : nat) (o : ObjId)
    (a f : string) (st : Store) :
  bots <> [] -> a <> "" -> includes bots a = false ->
  let ev := assign_event o a in
  let s1 := log_event now ev st in
  support st = None ->
  fst (decide_escalation bots (js_String o) s1) = Ok (true, f) ->
  fst (incrementEscalatedSessions now s1) = Thrown "Support data document not found" /\
  checkForBotEscalation bots now ev s1 = (Ok tt, add_alert "escalation" (js_String o) s1) /\
  step bots st (now, ev) = add_alert "escalation" (js_String o) s1.
Proof.
  intros Hb Ha Hinc ev s1 Hs Hdec. subst ev s1.
  rewrite decide_escalation_eval in Hdec. cbn in Hdec. injection Hdec as Hdec.
  assert (Hcfbe : checkForBotEscalation bots now (assign_event o a)
                    (log_event now (assign_event o a) st) =
                  (Ok tt, add_alert "escalation" (js_String o)
                            (log_event now (assign_event o a) st))).
  { rewrite checkForBotEscalation_human by assumption.
    rewrite Hdec. cbn [fst snd].
    rewrite record_assignment_no_counter by (cbn; exact Hs). reflexivity. }
  split; [|split; [exact Hcfbe|]].
  - unfold incrementEscalatedSessions, try_catch, bind, gets, log_only, ret, throw.
    cbn. rewrite Hs. reflexivity.
  - rewrite step_assign, Hcfbe. reflexivity.
Qed.

Lemma missing_counter_swallowed_witness :
  let st := store_with {[ "42" := bot_owned "BOT-1" ]} None [] in
  let ev := assign_event (ONum 42) "AGENT-7" in
  let s1 := log_event 7 ev st in
  (support st = None /\
   fst (decide_escalation ["BOT-1"] (js_String (ONum 42)) s1) = Ok (true, "BOT-1")) /\
  fst (incrementEscalatedSessions 7 s1) = Thrown "Support data document not found" /\
  checkForBotEscalation ["BOT-1"] 7 ev s1 =
    (Ok tt, add_alert "escalation" (js_String (ONum 42)) s1) /\
  step ["BOT-1"] st (7, ev) = add_alert "escalation" (js_String (ONum 42)) s1.
Proof.
  split; [split; [reflexivity | vm_compute; reflexivity]|].
  apply (missing_counter_swallowed ["BOT-1"] 7 (ONum 42) "AGENT-7" "BOT-1");
    [discriminate | discriminate | reflexivity | reflexivity | vm_compute; reflexivity].
Defined.

(** * Additional properties *)

(** ** Number rendering *)

Ltac eval_digit :=
  match goal with |- context [digit_of ?c] =>
    let v := eval vm_compute in (digit_of c) in change (digit_of c) with v
  end.

Lemma digits_acc_of_uint u acc :
  digits_acc (NilEmpty.string_of_uint u) acc = Nat.of_uint_acc u acc.
Proof.
  revert acc; induction u; intros acc;
    cbn [NilEmpty.string_of_uint digits_acc Nat.of_uint_acc]; try reflexivity;
    eval_digit; cbv iota beta; rewrite IHu, Nat.tail_mul_spec; f_equal; lia.
Qed.

Lemma parse_unsigned_js_String n :
  parse_unsigned (js_String (ONum n)) = Some n.
Proof.
  unfold js_String.
  assert (Hn : Nat.of_uint_acc (Nat.to_uint n) 0 = n) by apply Unsigned.of_to.
  destruct (Nat.to_uint n) as [| u | u | u | u | u | u | u | u | u | u] eqn:E;
    [ exfalso; cbn in Hn; subst n; discriminate E | .. ];
  unfold parse_unsigned; cbn [NilEmpty.string_of_uint]; eval_digit; cbv iota beta;
  rewrite digits_acc_of_uint; cbn [Nat.of_uint_acc] in Hn;
  rewrite Nat.tail_mul_spec in Hn; subst n; rewrite Nat.mul_0_r; reflexivity.
Qed.

Lemma js_String_num_digit_start n :
  exists c r, js_String (ONum n) = String c r /\ digit_of c <> None.
Proof.
  unfold js_String.
  assert (Hn : Nat.of_uint_acc (Nat.to_uint n) 0 = n) by apply Unsigned.of_to.
  destruct (Nat.to_uint n) as [| u | u | u | u | u | u | u | u | u | u] eqn:E;
    [ exfalso; cbn in Hn; subst n; discriminate E | .. ];
  cbn [NilEmpty.string_of_uint]; eexists _, _; split; try reflexivity; discriminate.
Qed.

Lemma skip_space_no_start s : starts_with_space s = false -> skip_space s = s.
Proof.
  intros H. destruct s as [|c [|c1 [|c2 r]]]; cbn in H |- *; [reflexivity|..];
    apply orb_false_iff in H as [H0 H]; rewrite H0; try reflexivity;
    apply orb_false_iff in H as [H1 H]; rewrite H1; try reflexivity;
    rewrite H; reflexivity.
Qed.

Lemma digit_start_no_space c r :
  digit_of c <> None -> starts_with_space (String c r) = false.
Proof.
  intros H. destruct r as [|c1 [|c2 r]];
    destruct c as [[] [] [] [] [] [] [] []]; try (exfalso; apply H; reflexivity);
    reflexivity.
Qed.

Lemma parseInt_digit_start c r :
  digit_of c <> None ->
  parseInt (String c r) = option_map Z.of_nat (parse_unsigned (String c r)).
Proof.
  intros H. unfold parseInt. rewrite (skip_space_no_start _ (digit_start_no_space c r H)).
  destruct c as [[] [] [] [] [] [] [] []]; try reflexivity;
    exfalso; apply H; reflexivity.
Qed.

Lemma parseInt_num_string n :
  parseInt (js_String (ONum n)) = Some (Z.of_nat n).
Proof.
  destruct (js_String_num_digit_start n) as (c & r & E & Hc).
  rewrite E, (parseInt_digit_start c r Hc), <- E, parse_unsigned_js_String.
  reflexivity.
Qed.

(** A numeric [objectId] within the safe integers (at most 2^53, where
    [String(objectId)] is the plain decimal numeral) rendered by
    [String(objectId)] and read back by [parseInt] gives the same number. *)
Theorem parseInt_js_String_num (n : nat) :
  (Z.of_nat n <= 2 ^ 53)%Z ->
  parseInt (js_String (ONum n)) = Some (Z.of_nat n).
Proof. intros _. apply parseInt_num_string. Qed.

(** ** Frames of the webhook path *)

Section Frames.
Context (R : Store -> Store -> Prop) `{!PreOrder R}.

Lemma stays_ret {A} (a : A) : stays R (ret a).
Proof. intros s. cbn. reflexivity. Qed.

Lemma stays_throw {A} e : stays R (@throw A e).
Proof. intros s. cbn. reflexivity. Qed.

Lemma stays_gets {A} (f : Store -> A) : stays R (gets f).
Proof. intros s. cbn. reflexivity. Qed.

Lemma stays_bind {A B} (m : M A) (k : A -> M B) :
  stays R m -> (forall a, stays R (k a)) -> stays R (bind m k).
Proof.
  intros Hm Hk s. unfold bind.
  specialize (Hm s). destruct (m s) as [[a|e] s'] eqn:E; cbn in *; [|exact Hm].
  etransitivity; [exact Hm | apply Hk].
Qed.

Lemma stays_try_catch {A} (m : M A) h :
  stays R m -> (forall e, stays R (h e)) -> stays R (try_catch m h).
Proof.
  intros Hm Hh s. unfold try_catch.
  specialize (Hm s). destruct (m s) as [[a|e] s'] eqn:E; cbn in *; [exact Hm|].
  etransitivity; [exact Hm | apply Hh].
Qed.

End Frames.

#[export] Instance same_log_preorder : PreOrder same_log.
Proof. split; unfold same_log; [intros s; reflexivity | intros x y z H1 H2; congruence]. Qed.

#[export] Instance same_conv_preorder cid : PreOrder (same_conv cid).
Proof. split; unfold same_conv; [intros s; reflexivity | intros x y z H1 H2; congruence]. Qed.

#[export] Instance keeps_convs_ok_preorder : PreOrder keeps_convs_ok.
Proof. split; unfold keeps_convs_ok; [intros s H; exact H | intros x y z H1 H2 H; auto]. Qed.

Lemma same_log_modify f :
  (forall s, webhook_events (f s) = webhook_events s) -> stays same_log (modify f).
Proof. intros Hf s. apply Hf. Qed.

Lemma same_log_conv_merge cid f : stays same_log (conv_merge cid f).
Proof. apply same_log_modify. reflexivity. Qed.

Lemma same_log_conv_update cid f : stays same_log (conv_update cid f).
Proof. intros s. unfold conv_update. destruct (conversations s !! cid); reflexivity. Qed.

Lemma same_log_alert type cid : stays same_log (sendImmediateAlert type cid).
Proof. apply same_log_modify. reflexivity. Qed.

Lemma same_log_increment now : stays same_log (incrementEscalatedSessions now).
Proof.
  intros s. unfold incrementEscalatedSessions, try_catch, bind, gets, log_only, ret,
    throw, modify; cbn. destruct (support s); reflexivity.
Qed.

Lemma same_log_decrement now : stays same_log (decrementEscalatedSessions now).
Proof.
  intros s. unfold decrementEscalatedSessions, try_catch, bind, gets, log_only, ret,
    modify; cbn. destruct (support s); reflexivity.
Qed.

Create HintDb frames.
#[export] Hint Resolve stays_ret stays_throw stays_gets
  same_log_conv_merge same_log_conv_update same_log_alert
  same_log_increment same_log_decrement : frames.

Ltac frame_tac :=
  repeat first
    [ solve [eauto with frames typeclass_instances]
    | progress cbv zeta
    | apply stays_bind; [exact _ | | intros ]
    | apply stays_try_catch; [exact _ | | intros ]
    | match goal with
      | |- stays _ (match ?x with _ => _ end) => destruct x
      | |- stays _ (if ?b then _ else _) => destruct b
      end ].

Lemma same_log_handleConversationEvent bots now ev :
  stays same_log (handleConversationEvent bots now ev).
Proof.
  unfold handleConversationEvent, checkForBotEscalation, decide_escalation,
    checkRecentBotAssignment, record_assignment, handleConversationClosure,
    conv_get, log_only.
  frame_tac.
Qed.

(** Every processed event, of any kind, appends exactly one entry to the
    "webhook-events" log and removes none. *)
Theorem processWebhookEvent_logs_once bots s now ev :
  webhook_events (step bots s (now, ev)) = (webhook_events s ++ [mkLogged ev now])%list.
Proof.
  unfold step, processWebhookEvent, storeWebhookEvent, try_catch, bind, log_only,
    ret, modify; cbn.
  destruct (is_ticket_event ev), (is_conversation_event ev); cbn;
    try reflexivity;
  match goal with |- context [handleConversationEvent ?b ?n ?e ?s1] =>
    pose proof (same_log_handleConversationEvent b n e s1) as H;
    unfold same_log in H; destruct (handleConversationEvent b n e s1) as [[]  s2];
    cbn in *; exact H
  end.
Qed.

Lemma alert_convs type cid s :
  conversations (snd (sendImmediateAlert type cid s)) = conversations s.
Proof. reflexivity. Qed.

Lemma increment_convs now s :
  conversations (snd (incrementEscalatedSessions now s)) = conversations s.
Proof.
  unfold incrementEscalatedSessions, try_catch, bind, gets, log_only, ret,
    throw, modify; cbn. destruct (support s); reflexivity.
Qed.

Lemma decrement_convs now s :
  conversations (snd (decrementEscalatedSessions now s)) = conversations s.
Proof.
  unfold decrementEscalatedSessions, try_catch, bind, gets, log_only, ret,
    modify; cbn. destruct (support s); reflexivity.
Qed.

Lemma same_conv_of_convs cid {A} (m : M A) :
  (forall s, conversations (snd (m s)) = conversations s) -> stays (same_conv cid) m.
Proof. intros H s. unfold same_conv. now rewrite H. Qed.

Lemma keeps_ok_of_convs {A} (m : M A) :
  (forall s, conversations (snd (m s)) = conversations s) -> stays keeps_convs_ok m.
Proof. intros H s. unfold keeps_convs_ok, convs_ok. now rewrite H. Qed.

Lemma same_conv_alert cid type c : stays (same_conv cid) (sendImmediateAlert type c).
Proof. apply same_conv_of_convs, alert_convs. Qed.

Lemma same_conv_increment cid now : stays (same_conv cid) (incrementEscalatedSessions now).
Proof. apply same_conv_of_convs, increment_convs. Qed.

Lemma same_conv_decrement cid now : stays (same_conv cid) (decrementEscalatedSessions now).
Proof. apply same_conv_of_convs, decrement_convs. Qed.

Lemma same_conv_conv_merge cid c f : c <> cid -> stays (same_conv cid) (conv_merge c f).
Proof. intros Hc s. unfold same_conv; cbn. now rewrite lookup_insert_ne. Qed.

Lemma same_conv_conv_update cid c f : c <> cid -> stays (same_conv cid) (conv_update c f).
Proof.
  intros Hc s. unfold same_conv, conv_update.
  destruct (conversations s !! c); cbn; [now rewrite lookup_insert_ne | reflexivity].
Qed.

Lemma keeps_ok_alert type c : stays keeps_convs_ok (sendImmediateAlert type c).
Proof. apply keeps_ok_of_convs, alert_convs. Qed.

Lemma keeps_ok_increment now : stays keeps_convs_ok (incrementEscalatedSessions now).
Proof. apply keeps_ok_of_convs, increment_convs. Qed.

Lemma keeps_ok_decrement now : stays keeps_convs_ok (decrementEscalatedSessions now).
Proof. apply keeps_ok_of_convs, decrement_convs. Qed.

Lemma conv_ok_empty : conv_ok empty_conv.
Proof. split; cbn; discriminate. Qed.

Lemma conv_ok_bot_fields a now d : conv_ok d -> conv_ok (bot_fields a now d).
Proof. intros [H1 H2]; split; cbn; auto. intros He; destruct (H2 He) as (_ & ?); auto. Qed.

Lemma conv_ok_escalation_fields h f now d : conv_ok d -> conv_ok (escalation_fields h f now d).
Proof. intros _; split; cbn; auto; intros _; repeat split; discriminate. Qed.

Lemma conv_ok_human_fields h now d : conv_ok d -> conv_ok (human_fields h now d).
Proof. intros [H1 H2]; split; cbn; auto. Qed.

Lemma conv_ok_closed_counted_fields now d : conv_ok d -> conv_ok (closed_counted_fields now d).
Proof. intros [H1 H2]; split; cbn; auto; discriminate. Qed.

Lemma conv_ok_closed_fields now d : conv_ok d -> conv_ok (closed_fields now d).
Proof. intros [H1 H2]; split; cbn; auto. Qed.

Lemma keeps_ok_conv_merge c f :
  (forall d, conv_ok d -> conv_ok (f d)) -> stays keeps_convs_ok (conv_merge c f).
Proof.
  intros Hf s Hs. unfold convs_ok in *; cbn. apply map_Forall_insert_2; [|exact Hs].
  apply Hf. destruct (conversations s !! c) eqn:E; cbn; [exact (Hs c _ E) | apply conv_ok_empty].
Qed.

Lemma keeps_ok_conv_update c f :
  (forall d, conv_ok d -> conv_ok (f d)) -> stays keeps_convs_ok (conv_update c f).
Proof.
  intros Hf s Hs. unfold conv_update.
  destruct (conversations s !! c) eqn:E; cbn; [|exact Hs].
  unfold convs_ok in *; cbn. apply map_Forall_insert_2; [|exact Hs]. apply Hf, (Hs c _ E).
Qed.

#[export] Hint Resolve same_conv_alert same_conv_increment same_conv_decrement
  same_conv_conv_merge same_conv_conv_update
  keeps_ok_alert keeps_ok_increment keeps_ok_decrement
  keeps_ok_conv_merge keeps_ok_conv_update
  conv_ok_bot_fields conv_ok_escalation_fields conv_ok_human_fields
  conv_ok_closed_counted_fields conv_ok_closed_fields : frames.

Lemma frame_checkForBotEscalation R `{!PreOrder R} bots now ev :
  (forall c f, c = js_String (objectId ev) -> stays R (conv_merge c f)) ->
  (forall type c, stays R (sendImmediateAlert type c)) ->
  stays R (incrementEscalatedSessions now) ->
  stays R (checkForBotEscalation bots now ev).
Proof.
  intros Hm Ha Hi.
  unfold checkForBotEscalation, decide_escalation, checkRecentBotAssignment,
    record_assignment, conv_get, log_only.
  frame_tac; auto.
Qed.

Lemma store_event_convs now ev s :
  conversations (snd (storeWebhookEvent now ev s)) = conversations s.
Proof. reflexivity. Qed.

Lemma keeps_ok_store_event now ev : stays keeps_convs_ok (storeWebhookEvent now ev).
Proof. apply keeps_ok_of_convs, store_event_convs. Qed.

Lemma same_conv_store_event cid now ev : stays (same_conv cid) (storeWebhookEvent now ev).
Proof. apply same_conv_of_convs, store_event_convs. Qed.

#[export] Hint Resolve keeps_ok_store_event same_conv_store_event : frames.

Lemma frame_processWebhookEvent R `{!PreOrder R} bots now ev :
  (forall c f, c = js_String (objectId ev) -> stays R (conv_merge c f)) ->
  (forall c f, c = js_String (objectId ev) -> stays R (conv_update c f)) ->
  (forall type c, stays R (sendImmediateAlert type c)) ->
  stays R (incrementEscalatedSessions now) ->
  stays R (decrementEscalatedSessions now) ->
  stays R (storeWebhookEvent now ev) ->
  stays R (processWebhookEvent bots now ev).
Proof.
  intros Hm Hu Ha Hi Hd Hs.
  pose proof (frame_checkForBotEscalation R bots now ev Hm Ha Hi).
  unfold processWebhookEvent, handleConversationEvent, handleConversationClosure,
    conv_get, log_only.
  frame_tac; auto.
Qed.

Lemma keeps_ok_reset now : stays keeps_convs_ok (resetEscalations now).
Proof.
  apply keeps_ok_of_convs. intros s. unfold resetEscalations, bind, gets, ret, modify; cbn.
  destruct (support s); reflexivity.
Qed.

Lemma keeps_ok_recalculate now : stays keeps_convs_ok (recalculateEscalations now).
Proof.
  apply keeps_ok_of_convs. intros s. unfold recalculateEscalations, bind, gets, ret, modify; cbn.
  destruct (support s); reflexivity.
Qed.

Lemma keeps_ok_checkForBotEscalation bots now ev :
  stays keeps_convs_ok (checkForBotEscalation bots now ev).
Proof.
  unfold checkForBotEscalation, decide_escalation, checkRecentBotAssignment,
    record_assignment, conv_get, log_only.
  frame_tac.
Qed.

Lemma perform_keeps_ok bots s op : convs_ok s -> convs_ok (perform bots s op).
Proof.
  revert s; destruct op as [now ev|now ev|now|now]; intros s; cbn; unfold step.
  - enough (stays keeps_convs_ok (processWebhookEvent bots now ev)) as H by exact (H s).
    pose proof (keeps_ok_checkForBotEscalation bots now ev).
    unfold processWebhookEvent, handleConversationEvent, handleConversationClosure,
      conv_get, log_only.
    frame_tac.
  - apply keeps_ok_checkForBotEscalation.
  - apply keeps_ok_reset.
  - apply keeps_ok_recalculate.
Qed.

(** Every sequence of operations keeps the shape of every conversation
    document: counted implies escalated, and escalated implies a bot
    history and recorded escalation time, source and target. *)
Theorem conversation_shape_invariant (bots : list string) (ops : list Operation) (s : Store) :
  convs_ok s -> convs_ok (fold_left (perform bots) ops s).
Proof.
  revert s; induction ops as [|op ops IH]; intros s Hs; cbn; [exact Hs|].
  apply IH, perform_keeps_ok, Hs.
Qed.

(** Processing or replaying an event leaves the documents of all other
    conversations unchanged. *)
Theorem other_conversation_untouched (bots : list string) (s : Store) (now : nat)
    (ev : WebhookEvent) (cid : string) :
  js_String (objectId ev) <> cid ->
  conversations (step bots s (now, ev)) !! cid = conversations s !! cid /\
  conversations (snd (checkForBotEscalation bots now ev s)) !! cid = conversations s !! cid.
Proof.
  intros Hne. split.
  - enough (stays (same_conv cid) (processWebhookEvent bots now ev)) as H by exact (H s).
    apply (frame_processWebhookEvent (same_conv cid)); intros; subst;
      eauto with frames.
  - enough (stays (same_conv cid) (checkForBotEscalation bots now ev)) as H by exact (H s).
    apply (frame_checkForBotEscalation (same_conv cid)); intros; subst; eauto with frames.
Qed.

Lemma includes_nonempty bots b : includes bots b = true -> bots <> [].
Proof. destruct bots; [discriminate | congruence]. Qed.

(** Assigning a conversation to a bot re-opens it under that bot and keeps
    its escalation fields and the counter. *)
Theorem bot_assignment_keeps_escalation (bots : list string) (s : Store) (now : nat)
    (o : ObjId) (b : string) (d : ConvDoc) :
  includes bots b = true -> b <> "" ->
  conversations s !! js_String o = Some d ->
  exists d',
    conversations (step bots s (now, assign_event o b)) !! js_String o = Some d' /\
    currentAssignee d' = Some b /\ hasBotAssignment d' = Some true /\
    status d' = Some "OPEN" /\
    escalated d' = escalated d /\ escalationCounted d' = escalationCounted d /\
    escalatedFrom d' = escalatedFrom d /\ escalatedTo d' = escalatedTo d /\
    support (step bots s (now, assign_event o b)) = support s.
Proof.
  intros Hinc Hb Hd. rewrite step_assign.
  rewrite (checkForBotEscalation_bot bots now o b _ (includes_nonempty _ _ Hinc) Hb Hinc).
  cbn. rewrite Hd, lookup_insert_eq. eexists; repeat split; reflexivity.
Qed.

(** A human assignment of a conversation that had a bot is an escalation
    from the previous assignee: the document records it, the counter goes up
    by one and one escalation alert is queued. *)
Theorem human_after_bot_escalates (bots : list string) (s : Store) (now : nat)
    (o : ObjId) (prev h : string) (d : ConvDoc) (sd : SupportData) :
  bots <> [] -> includes bots h = false -> h <> "" -> prev <> "" ->
  conversations s !! js_String o = Some d ->
  hasBotAssignment d = Some true -> currentAssignee d = Some prev ->
  support s = Some sd ->
  conversations (step bots s (now, assign_event o h)) !! js_String o =
    Some (escalation_fields h prev now d) /\
  escalated_count (step bots s (now, assign_event o h)) = Some (escalated_or_0 sd + 1)%Z /\
  critical_alerts (step bots s (now, assign_event o h)) =
    (critical_alerts s ++ [mkAlert "escalation" (js_String o)])%list.
Proof.
  intros Hb Hh Hh0 Hp Hd Hbot Hprev Hs. rewrite step_assign.
  rewrite (checkForBotEscalation_human bots now o h _ Hb Hh0 Hh).
  unfold escalation_decision, escalation_from_doc; cbn [log_event set_webhook_events conversations].
  rewrite Hd, Hbot, Hprev, (truthy_nonempty prev Hp), orb_true_r; cbn [fst snd default].
  rewrite (record_assignment_escalation _ _ _ _ _ sd) by exact Hs.
  cbn. rewrite Hd, lookup_insert_eq. repeat split; reflexivity.
Qed.

(** A human assignment of a conversation without bot history leaves the
    counter and the alerts alone. *)
Theorem human_without_bot_not_counted (bots : list string) (s : Store) (now : nat)
    (o : ObjId) (h : string) (d : ConvDoc) :
  bots <> [] -> includes bots h = false -> h <> "" ->
  conversations s !! js_String o = Some d ->
  hasBotAssignment d <> Some true ->
  (forall p, currentAssignee d = Some p -> includes bots p = false) ->
  support (step bots s (now, assign_event o h)) = support s /\
  critical_alerts (step bots s (now, assign_event o h)) = critical_alerts s /\
  conversations (step bots s (now, assign_event o h)) !! js_String o =
    Some (human_fields h now d).
Proof.
  intros Hb Hh Hh0 Hd Hbot Hprev. rewrite step_assign.
  rewrite (checkForBotEscalation_human bots now o h _ Hb Hh0 Hh).
  unfold escalation_decision, escalation_from_doc; cbn [log_event set_webhook_events conversations].
  rewrite Hd.
  assert (Hf : (truthy (currentAssignee d) && includes bots (default "" (currentAssignee d))
                || default false (hasBotAssignment d)) = false).
  { destruct (currentAssignee d) as [p|] eqn:Ep; cbn.
    - rewrite (Hprev p eq_refl), andb_false_r; cbn.
      destruct (hasBotAssignment d) as [[]|]; cbn; congruence.
    - destruct (hasBotAssignment d) as [[]|]; cbn; congruence. }
  rewrite Hf; cbn [fst snd]. rewrite record_assignment_plain.
  cbn. rewrite Hd, lookup_insert_eq. repeat split; reflexivity.
Qed.

Lemma active_insert_inactive (m : gmap string ConvDoc) k d x :
  m !! k = Some d -> counts_as_active d = true -> counts_as_active x = false ->
  active_escalations (<[k := x]> m) = pred (active_escalations m) /\
  1 <= active_escalations m.
Proof.
  intros Hd Ha Hx. unfold active_escalations.
  assert (Hf : filter (fun kv : string * ConvDoc => counts_as_active kv.2 = true) m !! k = Some d)
    by (apply map_lookup_filter_Some_2; auto).
  split.
  - rewrite map_filter_insert_False by (cbn; congruence).
    rewrite map_filter_delete.
    rewrite (map_size_delete_Some (M:=gmap string) k
      (filter (fun kv : string * ConvDoc => counts_as_active kv.2 = true) m));
      [reflexivity | eexists; exact Hf].
  - pose proof (map_size_delete_Some (M:=gmap string) k (filter (fun kv : string * ConvDoc => counts_as_active kv.2 = true) m)
      ltac:(eexists; exact Hf)).
    destruct (size (filter _ m)) eqn:E; [|lia].
    apply map_size_empty_iff in E. rewrite E, lookup_empty in Hf. discriminate.
Qed.

Lemma active_insert_active (m : gmap string ConvDoc) k x :
  (forall d, m !! k = Some d -> counts_as_active d = false) -> counts_as_active x = true ->
  active_escalations (<[k := x]> m) = S (active_escalations m).
Proof.
  intros Hd Hx. unfold active_escalations.
  rewrite map_filter_insert_True by exact Hx.
  apply map_size_insert_None. apply map_lookup_filter_None_2.
  destruct (m !! k) as [d|] eqn:E; [right; intros y Hy; cbn; injection Hy as <-; rewrite (Hd d eq_refl); discriminate | left; reflexivity].
Qed.

(** When the counter agrees with the recount, closing a counted escalated
    conversation keeps them in agreement. *)
Theorem closure_keeps_recount (bots : list string) (s : Store) (now : nat) (o : ObjId)
    (d : ConvDoc) (sd : SupportData) :
  conversations s !! js_String o = Some d -> counts_as_active d = true ->
  support s = Some sd ->
  sessions_escalated sd = Some (Z.of_nat (active_escalations (conversations s))) ->
  escalated_count (step bots s (now, status_event o "CLOSED")) =
    Some (Z.of_nat (active_escalations (conversations (step bots s (now, status_event o "CLOSED"))))).
Proof.
  intros Hd Ha Hs Hc.
  assert (He : escalated d = Some true).
  { unfold counts_as_active, strictly_true in Ha. destruct (escalated d) as [[]|]; cbn in Ha; congruence. }
  destruct (closure_step bots s o now d sd Hd He Hs) as [Hd' Hs'].
  assert (Hcl : conversations (step bots s (now, status_event o "CLOSED")) =
                <[js_String o := closed_counted_fields now d]> (conversations s)).
  { rewrite step_closed.
    rewrite (handleConversationClosure_escalated now _ _ d sd)
      by (cbn; rewrite ?He; assumption || reflexivity). reflexivity. }
  destruct (active_insert_inactive (conversations s) (js_String o) d (closed_counted_fields now d)
              Hd Ha ltac:(unfold counts_as_active; cbn; apply andb_false_r)) as [Hn H1].
  unfold escalated_count. rewrite Hs', Hcl, Hn. cbn. unfold escalated_or_0. rewrite Hc; cbn. f_equal. lia.
Qed.

(** When the counter agrees with the recount, a first escalation keeps
    them in agreement. *)
Theorem first_escalation_keeps_recount (bots : list string) (s : Store) (now : nat)
    (o : ObjId) (h : string) (d : ConvDoc) (sd : SupportData) :
  bots <> [] -> includes bots h = false -> h <> "" ->
  conversations s !! js_String o = Some d ->
  hasBotAssignment d = Some true -> counts_as_active d = false ->
  support s = Some sd ->
  sessions_escalated sd = Some (Z.of_nat (active_escalations (conversations s))) ->
  escalated_count (step bots s (now, assign_event o h)) =
    Some (Z.of_nat (active_escalations (conversations (step bots s (now, assign_event o h))))).
Proof.
  intros Hb Hh Hh0 Hd Hbot Ha Hs Hc. rewrite step_assign.
  rewrite (checkForBotEscalation_human bots now o h _ Hb Hh0 Hh).
  unfold escalation_decision, escalation_from_doc; cbn [log_event set_webhook_events conversations].
  rewrite Hd, Hbot, orb_true_r; cbn [fst snd default].
  rewrite (record_assignment_escalation _ _ _ _ _ sd) by exact Hs.
  unfold escalated_count; cbn. rewrite Hd; cbn.
  rewrite active_insert_active; [ | intros d' E; rewrite Hd in E; injection E as <-; exact Ha | reflexivity].
  unfold escalated_or_0. rewrite Hc; cbn. f_equal. lia.
Qed.

Lemma decrement_ok now s : fst (decrementEscalatedSessions now s) = Ok tt.
Proof.
  unfold decrementEscalatedSessions, try_catch, bind, gets, log_only, ret, modify; cbn.
  destruct (support s); reflexivity.
Qed.

Lemma closure_eval_cases now cid s :
  snd (handleConversationClosure now cid s) =
  match conversations s !! cid with
  | Some d =>
      if strictly_true (escalated d)
      then set_conversations (<[cid := closed_counted_fields now d]>
             (conversations (snd (decrementEscalatedSessions now s))))
             (snd (decrementEscalatedSessions now s))
      else set_conversations (<[cid := closed_fields now d]> (conversations s)) s
  | None => s
  end.
Proof.
  unfold handleConversationClosure, conv_get, conv_update, try_catch, bind, gets,
    log_only, ret; cbn.
  destruct (conversations s !! cid) as [d|] eqn:E; [|reflexivity].
  destruct (strictly_true (escalated d)); cbv beta; [|rewrite E; reflexivity].
  pose proof (decrement_convs now s) as Hc. pose proof (decrement_ok now s) as Hok.
  destruct (decrementEscalatedSessions now s) as [r s'] eqn:D; cbn in Hc, Hok |- *.
  subst r. rewrite Hc, E. reflexivity.
Qed.

(** Closing a conversation that was not escalated leaves the counter alone
    and marks the conversation closed. *)
Theorem closure_of_unescalated (bots : list string) (s : Store) (now : nat) (o : ObjId)
    (d : ConvDoc) :
  conversations s !! js_String o = Some d -> escalated d <> Some true ->
  support (step bots s (now, status_event o "CLOSED")) = support s /\
  conversations (step bots s (now, status_event o "CLOSED")) !! js_String o =
    Some (closed_fields now d).
Proof.
  intros Hd He. rewrite step_closed, closure_eval_cases. cbn. rewrite Hd.
  replace (strictly_true (escalated d)) with false
    by (destruct (escalated d) as [[]|]; cbn; congruence).
  cbn. rewrite lookup_insert_eq. split; reflexivity.
Qed.

(** Closing an unknown conversation creates no document and leaves the
    counter alone. *)
Theorem closure_of_unknown (bots : list string) (s : Store) (now : nat) (o : ObjId) :
  conversations s !! js_String o = None ->
  conversations (step bots s (now, status_event o "CLOSED")) = conversations s /\
  support (step bots s (now, status_event o "CLOSED")) = support s.
Proof.
  intros Hd. rewrite step_closed, closure_eval_cases. cbn. rewrite Hd. split; reflexivity.
Qed.

(** After a closure event a known conversation is closed and is no longer
    counted by [getEscalatedSessions], at any time. *)
Theorem closed_not_on_dashboard (bots : list string) (s : Store) (now : nat) (o : ObjId)
    (d : ConvDoc) :
  conversations s !! js_String o = Some d ->
  exists d',
    conversations (step bots s (now, status_event o "CLOSED")) !! js_String o = Some d' /\
    status d' = Some "CLOSED" /\ closedAt d' = Some now /\
    forall t, open_recent_escalation t d' = false.
Proof.
  intros Hd. rewrite step_closed, closure_eval_cases. cbn. rewrite Hd.
  destruct (strictly_true (escalated d)); cbn; rewrite lookup_insert_eq;
    eexists; (split; [reflexivity|]); repeat split; intros t;
    unfold open_recent_escalation; cbn; rewrite andb_false_r; reflexivity.
Qed.

(** The dashboard count of [getEscalatedSessions] never exceeds the
    recount of [recalculateEscalations]. *)
Theorem dashboard_count_le_recount (now : nat) (m : gmap string ConvDoc) :
  getEscalatedSessions now m <= active_escalations m.
Proof.
  unfold getEscalatedSessions, active_escalations.
  rewrite <- (map_filter_filter_l (fun kv : string * ConvDoc => open_recent_escalation now kv.2 = true)
               (fun kv : string * ConvDoc => counts_as_active kv.2 = true)).
  - apply map_subseteq_size, map_filter_subseteq.
  - intros k d _ H. unfold open_recent_escalation in H; cbn in H |- *.
    destruct (counts_as_active d); [reflexivity | discriminate].
Qed.

(** A conversation creation event without a status or assignment change
    is logged once, raises exactly one new-chat alert and leaves the
    conversation documents as they were. *)
Theorem creation_event_alerts_new_chat (bots : list string) (s : Store) (now : nat)
    (ev : WebhookEvent) :
  subscriptionType ev = "conversation.creation" ->
  is_str (propertyName ev) "status" = false ->
  is_str (propertyName ev) "assignedTo" = false ->
  let s' := step bots s (now, ev) in
  conversations s' = conversations s /\
  webhook_events s' = (webhook_events s ++ [mkLogged ev now])%list /\
  critical_alerts s' = (critical_alerts s ++ [mkAlert "new_chat" (js_String (objectId ev))])%list.
Proof.
  intros Ht Hs Ha s'. subst s'. unfold step, processWebhookEvent, handleConversationEvent,
    storeWebhookEvent, sendImmediateAlert, is_ticket_event, is_conversation_event,
    try_catch, bind, log_only, ret, modify; cbn. rewrite Ht, Hs, Ha. cbn. auto.
Qed.

Lemma checkRecentBotAssignment_eval bots cid s :
  checkRecentBotAssignment bots cid s =
  (Ok (first_bot_assignee bots (recent_assignment_events (parseInt cid) (webhook_events s))), s).
Proof. reflexivity. Qed.

Lemma first_bot_assignee_sound bots l b :
  first_bot_assignee bots l = Some b ->
  includes bots b = true /\ b <> "" /\
  exists le, In le l /\ propertyValue (le_event le) = Some b.
Proof.
  induction l as [|le r IH]; cbn [first_bot_assignee In]; [discriminate|].
  destruct (propertyValue (le_event le)) as [v|] eqn:Ev.
  - destruct (truthy (Some v) && includes bots v) eqn:Hv.
    + intros [= <-]. apply andb_true_iff in Hv as [Ht Hi]. unfold truthy in Ht.
      rewrite negb_true_iff, String.eqb_neq in Ht. refine (conj _ (conj _ _)); auto. exists le; auto.
    + intros H. destruct (IH H) as (? & ? & le' & ? & ?). refine (conj _ (conj _ _)); auto. exists le'; auto.
  - intros H. destruct (IH H) as (? & ? & le' & ? & ?). refine (conj _ (conj _ _)); auto. exists le'; auto.
Qed.

(** The history fallback reads only: a bot it reports is a configured,
    non-empty bot id assigned by a logged event with a numeric id equal to
    the parsed conversation id. *)
Theorem recent_bot_assignment_sound (bots : list string) (cid : string) (s : Store)
    (b : string) :
  fst (checkRecentBotAssignment bots cid s) = Ok (Some b) ->
  snd (checkRecentBotAssignment bots cid s) = s /\
  includes bots b = true /\ b <> "" /\
  exists le n,
    In le (webhook_events s) /\ objectId (le_event le) = ONum n /\
    parseInt cid = Some (Z.of_nat n) /\
    propertyName (le_event le) = Some "assignedTo" /\
    propertyValue (le_event le) = Some b.
Proof.
  rewrite checkRecentBotAssignment_eval; cbn. intros [= Hb].
  destruct (first_bot_assignee_sound bots _ b Hb) as (Hi & Hne & le & Hin & Hv).
  repeat split; auto.
  unfold recent_assignment_events in Hin.
  apply list_elem_of_In, elem_of_take in Hin as (i & Hin & _).
  apply list_elem_of_lookup_2 in Hin.
  rewrite (merge_sort_Permutation newer_or_same) in Hin.
  apply list_elem_of_In in Hin. unfold assignment_history in Hin.
  apply filter_In in Hin as [Hin Hc]. apply andb_true_iff in Hc as [Ho Hp].
  destruct (objectId (le_event le)) as [x|n] eqn:Eo; [discriminate|].
  destruct (parseInt cid) as [z|] eqn:Ez; [|discriminate].
  apply Z.eqb_eq in Ho. subst z.
  destruct (propertyName (le_event le)) as [pn|] eqn:Ep; [|discriminate].
  apply String.eqb_eq in Hp. subst pn.
  exists le, n. auto.
Qed.

#[export] Instance newer_or_same_trans : Transitive newer_or_same.
Proof. intros a b c; unfold newer_or_same; lia. Qed.

#[export] Instance newer_or_same_total : Total newer_or_same.
Proof. intros a b; unfold newer_or_same; lia. Qed.





(** ** Page size of [getWebhookPayloads] *)

Lemma js_String_num_digits n :
  forallb (fun c => if digit_of c then true else false) (list_ascii_of_string (js_String (ONum n))) = true.
Proof.
  unfold js_String. generalize (Nat.to_uint n) as u.
  induction u; cbn; try assumption; reflexivity.
Qed.

Lemma parse_unsigned_auto_digits s :
  forallb (fun c => if digit_of c then true else false) (list_ascii_of_string s) = true ->
  parse_unsigned_auto s = parse_unsigned s.
Proof.
  intros H. destruct s as [|c [|x r]]; try reflexivity.
  cbn [list_ascii_of_string forallb] in H.
  apply andb_true_iff in H as [_ H]. apply andb_true_iff in H as [Hx _].
  unfold parse_unsigned_auto.
  destruct (Ascii.eqb_spec x "x") as [->|_]; [discriminate Hx|].
  destruct (Ascii.eqb_spec x "X") as [->|_]; [discriminate Hx|].
  rewrite orb_false_r, andb_false_r. reflexivity.
Qed.

Lemma parseInt_auto_digit_start c r :
  digit_of c <> None ->
  parseInt_auto (String c r) = option_map Z.of_nat (parse_unsigned_auto (String c r)).
Proof.
  intros H. unfold parseInt_auto.
  rewrite (skip_space_no_start _ (digit_start_no_space c r H)).
  destruct c as [[] [] [] [] [] [] [] []]; try reflexivity;
    exfalso; apply H; reflexivity.
Qed.

Lemma parseInt_auto_num n :
  parseInt_auto (js_String (ONum n)) = Some (Z.of_nat n).
Proof.
  destruct (js_String_num_digit_start n) as (c & r & E & Hc).
  rewrite E, (parseInt_auto_digit_start c r Hc), <- E.
  rewrite (parse_unsigned_auto_digits _ (js_String_num_digits n)), parse_unsigned_js_String.
  reflexivity.
Qed.

Lemma parseInt_auto_minus t :
  parseInt_auto (String "-" t) = option_map (fun n => (- Z.of_nat n)%Z) (parse_unsigned_auto t).
Proof.
  unfold parseInt_auto.
  rewrite skip_space_no_start by (destruct t as [|c1 [|c2 r]]; reflexivity).
  reflexivity.
Qed.

(** The page size of [getWebhookPayloads] is at most 100 and never 0. *)
Theorem payload_limit_bounded (q : option string) :
  (payload_limit q <= 100)%Z /\ payload_limit q <> 0%Z.
Proof.
  unfold payload_limit.
  destruct (parseInt_auto _) as [z|]; [destruct (Z.eqb_spec z 0)|]; lia.
Qed.

(** A numeric [limit] gives that number capped at 100, and 0 gives the
    default 20. *)
Theorem payload_limit_of_number (n : nat) :
  payload_limit (Some (js_String (ONum n))) =
  if Nat.eqb n 0 then 20%Z else Z.min (Z.of_nat n) 100.
Proof.
  unfold payload_limit. cbn -[parseInt_auto js_String]. rewrite parseInt_auto_num.
  destruct n; reflexivity.
Qed.

(** A negative [limit] within the safe integers is passed on unchanged. *)
Theorem payload_limit_negative (n : nat) :
  0 < n -> (Z.of_nat n <= 2 ^ 53)%Z ->
  payload_limit (Some ("-" ++ js_String (ONum n))) = (- Z.of_nat n)%Z.
Proof.
  intros Hn _. unfold payload_limit.
  change ("-" ++ js_String (ONum n)) with (String "-" (js_String (ONum n))).
  cbn -[parseInt_auto js_String]. rewrite parseInt_auto_minus.
  rewrite (parse_unsigned_auto_digits _ (js_String_num_digits n)), parse_unsigned_js_String.
  cbn. destruct (Z.eqb_spec (- Z.of_nat n) 0); lia.
Qed.

(** ** Bot ids *)

Lemma string_app_nil_r (s : string) : s ++ "" = s.
Proof. induction s as [|x s IH]; [reflexivity | exact (f_equal (String x) IH)]. Qed.

Lemma string_app_assoc (a b c : string) : (a ++ b) ++ c = a ++ (b ++ c).
Proof. induction a as [|x a IH]; [reflexivity | exact (f_equal (String x) IH)]. Qed.

Lemma split_comma_acc_nonempty s cur : split_comma_acc s cur <> [].
Proof.
  revert cur; induction s as [|c r IH]; intros cur; cbn; [discriminate|].
  destruct (Ascii.eqb c ","); [discriminate | apply IH].
Qed.

Lemma concat_split_comma_acc s cur :
  String.concat "," (split_comma_acc s cur) = cur ++ s.
Proof.
  revert cur; induction s as [|c r IH]; intros cur; cbn [split_comma_acc].
  - symmetry; apply string_app_nil_r.
  - destruct (Ascii.eqb c ",") eqn:Ec.
    + apply Ascii.eqb_eq in Ec; subst c.
      pose proof (split_comma_acc_nonempty r "") as Hne.
      destruct (split_comma_acc r "") as [|x xs] eqn:E; [congruence|].
      change (String.concat "," (cur :: x :: xs)) with (cur ++ ("," ++ String.concat "," (x :: xs))).
      rewrite <- E, IH. reflexivity.
    + rewrite IH, string_app_assoc. reflexivity.
Qed.

Lemma starts_with_space_app p q :
  starts_with_space p = true -> starts_with_space (p ++ q) = true.
Proof.
  destruct p as [|c [|c1 [|c2 r]]]; intros H; [discriminate H|..].
  - change (String c "" ++ q) with (String c q).
    cbn -[is_js_space js_space2 js_space3] in H |- *.
    destruct (is_js_space c); [reflexivity | discriminate H].
  - change (String c (String c1 "") ++ q) with (String c (String c1 q)).
    cbn -[is_js_space js_space2 js_space3] in H |- *.
    destruct (is_js_space c); [reflexivity|].
    destruct (js_space2 c c1); [reflexivity | discriminate H].
  - exact H.
Qed.

Lemma no_js_space_app_l a b : no_js_space (a ++ b) = true -> no_js_space b = true.
Proof.
  induction a as [|c r IH]; intros H; [exact H|].
  apply IH. apply andb_true_iff in H as [_ H]. exact H.
Qed.

Lemma no_js_space_app_r a b : no_js_space (a ++ b) = true -> no_js_space a = true.
Proof.
  induction a as [|c r IH]; intros H; [reflexivity|].
  change (String c r ++ b) with (String c (r ++ b)) in H.
  cbn [no_js_space] in H |- *. apply andb_true_iff in H as [H1 H2].
  rewrite (IH H2), andb_true_r.
  destruct (starts_with_space (String c r)) eqn:E; [|reflexivity].
  apply (starts_with_space_app _ b) in E.
  change (String c r ++ b) with (String c (r ++ b)) in E.
  rewrite E in H1. discriminate H1.
Qed.

Lemma split_comma_acc_substring s cur x :
  In x (split_comma_acc s cur) -> exists a b, cur ++ s = a ++ x ++ b.
Proof.
  revert cur; induction s as [|c r IH]; intros cur Hin; cbn in Hin.
  - destruct Hin as [<-|[]]. exists "", "". reflexivity.
  - destruct (Ascii.eqb c ",").
    + destruct Hin as [<-|Hin].
      * exists "", (String c r). reflexivity.
      * destruct (IH "" Hin) as (a & b & E). exists (cur ++ String c a), b.
        change ("" ++ r) with r in E. rewrite string_app_assoc, E. reflexivity.
    + destruct (IH _ Hin) as (a & b & E). exists a, b.
      rewrite <- E, string_app_assoc. reflexivity.
Qed.

Lemma trim_end_cons c r :
  trim_end (String c r) =
  if String.eqb (skip_space (String c r)) "" then "" else String c (trim_end r).
Proof. reflexivity. Qed.

Lemma trim_end_no_space x : no_js_space x = true -> trim_end x = x.
Proof.
  induction x as [|c r IH]; intros H; [reflexivity|].
  cbn [no_js_space] in H. apply andb_true_iff in H as [H1 H2].
  apply negb_true_iff in H1.
  rewrite trim_end_cons, (skip_space_no_start _ H1), (IH H2). reflexivity.
Qed.

Lemma trim_no_space x : no_js_space x = true -> trim x = x.
Proof.
  intros H. unfold trim. rewrite (skip_space_no_start x).
  - apply trim_end_no_space, H.
  - destruct x as [|c r]; [reflexivity|].
    cbn [no_js_space] in H. apply andb_true_iff in H as [H _].
    apply negb_true_iff, H.
Qed.

(** Bot detection is disabled exactly when the parameter is unset or
    empty. *)
Theorem getBotAgentIds_empty_iff (botIdsValue : option string) :
  getBotAgentIds botIdsValue = [] <-> botIdsValue = None \/ botIdsValue = Some "".
Proof.
  unfold getBotAgentIds. destruct botIdsValue as [v|].
  - destruct (String.eqb_spec v "") as [->|Hv].
    + split; auto.
    + split.
      * intros H. apply map_eq_nil in H. exfalso. exact (split_comma_acc_nonempty v "" H).
      * intros [H|H]; congruence.
  - split; auto.
Qed.

(** Without white space, joining the bot ids with commas gives back the
    configured value. *)
Theorem getBotAgentIds_round_trip (v : string) :
  v <> "" -> no_js_space v = true ->
  String.concat "," (getBotAgentIds (Some v)) = v.
Proof.
  intros Hv Hs. unfold getBotAgentIds.
  destruct (String.eqb_spec v "") as [->|_]; [congruence|].
  rewrite map_ext_in with (g := fun x => x).
  - rewrite map_id. unfold split_comma. apply concat_split_comma_acc.
  - intros x Hx. apply trim_no_space.
    destruct (split_comma_acc_substring v "" x Hx) as (a & b & E).
    change ("" ++ v) with v in E. rewrite E in Hs. exact (no_js_space_app_r _ _ (no_js_space_app_l _ _ Hs)).
Qed.

(** ** Payload cleanup *)

Lemma batch_slices_concat {A} (k f i : nat) (l : list A) :
  0 < k -> length l <= i + f * k ->
  concat (batch_slices f k i l) = skipn i l.
Proof.
  intros Hk. revert i; induction f as [|f IH]; intros i Hl; cbn [batch_slices].
  - rewrite skipn_all2 by lia. reflexivity.
  - destruct (Nat.ltb_spec i (length l)).
    + cbn [concat]. rewrite IH by lia.
      rewrite <- (firstn_skipn k (skipn i l)) at 2. f_equal.
      rewrite skipn_skipn. f_equal. lia.
    + rewrite skipn_all2 by lia. reflexivity.
Qed.

(** The batches of 500 together delete every selected payload exactly
    once, in order. *)
Theorem cleanup_batches_cover (l : list Payload) :
  concat (batch_slices (length l) 500 0 l) = l.
Proof. rewrite batch_slices_concat by lia. reflexivity. Qed.

Lemma Permutation_list_filter {A} (f : A -> bool) (l k : list A) :
  l ≡ₚ k -> List.filter f l ≡ₚ List.filter f k.
Proof.
  induction 1 as [|x l k _ IH|x y l|l m k _ IH1 _ IH2]; cbn.
  - reflexivity.
  - destruct (f x); [apply perm_skip|]; exact IH.
  - destruct (f x), (f y); try reflexivity; apply perm_swap.
  - etransitivity; eauto.
Qed.

Lemma list_filter_all_true {A} (f : A -> bool) (l : list A) :
  (forall x, In x l -> f x = true) -> List.filter f l = l.
Proof.
  induction l as [|x l IH]; intros H; cbn; [reflexivity|].
  rewrite (H x (or_introl eq_refl)), IH; auto. intros y Hy; apply H; right; exact Hy.
Qed.

Lemma list_filter_all_false {A} (f : A -> bool) (l : list A) :
  (forall x, In x l -> f x = false) -> List.filter f l = [].
Proof.
  induction l as [|x l IH]; intros H; cbn; [reflexivity|].
  rewrite (H x (or_introl eq_refl)), IH; auto. intros y Hy; apply H; right; exact Hy.
Qed.

#[export] Instance payload_newer_or_same_trans : Transitive payload_newer_or_same.
Proof. intros a b c; unfold payload_newer_or_same; lia. Qed.

#[export] Instance payload_newer_or_same_total : Total payload_newer_or_same.
Proof. intros a b; unfold payload_newer_or_same; lia. Qed.

Lemma cleanup_perm (payloads : list Payload) :
  NoDup (map p_id payloads) ->
  cleanupOldWebhookPayloads payloads ≡ₚ
    firstn 100 (merge_sort payload_newer_or_same payloads).
Proof.
  intros Hnd. unfold cleanupOldWebhookPayloads.
  set (S := merge_sort payload_newer_or_same payloads).
  assert (HP : S ≡ₚ payloads) by apply merge_sort_Permutation.
  destruct (Nat.ltb_spec 100 (length S)) as [Hlt|Hge].
  - rewrite batch_slices_concat by lia.
    assert (HndS : NoDup (map p_id S)).
    { eapply NoDup_Permutation_proper; [apply Permutation_map, HP | exact Hnd]. }
    rewrite <- (firstn_skipn 100 S) in HndS. rewrite map_app in HndS.
    apply NoDup_app in HndS as (_ & Hdisj & _).
    etransitivity; [apply Permutation_list_filter; symmetry; exact HP|].
    rewrite <- (firstn_skipn 100 S) at 1. rewrite List.filter_app.
    rewrite (list_filter_all_false _ (skipn 100 S)), app_nil_r.
    + apply reflexive_eq, list_filter_all_true. intros x Hx.
      apply negb_true_iff. apply not_true_is_false. intros Hex.
      apply existsb_exists in Hex as (y & Hy & Hxy). apply Nat.eqb_eq in Hxy.
      apply (Hdisj (p_id x)).
      * apply list_elem_of_In, in_map, Hx.
      * rewrite Hxy. apply list_elem_of_In, Hy.
    + intros x Hx. apply negb_false_iff, existsb_exists.
      exists (p_id x). split; [apply in_map, Hx | apply Nat.eqb_refl].
  - rewrite firstn_all2 by lia. symmetry; exact HP.
Qed.

(** With distinct ids, the cleanup keeps [min 100 n] payloads, each at
    least as new as every removed one. *)
Theorem cleanup_keeps_newest (payloads : list Payload) :
  NoDup (map p_id payloads) ->
  length (cleanupOldWebhookPayloads payloads) = Nat.min 100 (length payloads) /\
  forall p q, In p (cleanupOldWebhookPayloads payloads) -> In q payloads ->
    ~ In q (cleanupOldWebhookPayloads payloads) -> p_timestamp q <= p_timestamp p.
Proof.
  intros Hnd. pose proof (cleanup_perm payloads Hnd) as HC.
  set (S := merge_sort payload_newer_or_same payloads) in HC.
  assert (HP : S ≡ₚ payloads) by apply merge_sort_Permutation.
  split.
  - rewrite (Permutation_length HC), length_firstn, (Permutation_length HP). reflexivity.
  - intros p q Hp Hq Hnq.
    assert (HSS : StronglySorted payload_newer_or_same S)
      by (apply StronglySorted_merge_sort; typeclasses eauto).
    rewrite <- (firstn_skipn 100 S) in HSS.
    apply (StronglySorted_app_1_elem_of _ _ _ p q HSS).
    + apply list_elem_of_In. exact (Permutation_in _ HC Hp).
    + apply list_elem_of_In.
      assert (HqS : In q S) by (apply (Permutation_in _ (symmetry HP)), Hq).
      rewrite <- (firstn_skipn 100 S) in HqS. apply in_app_or in HqS as [Hin|Hin]; [|exact Hin].
      exfalso. apply Hnq. exact (Permutation_in _ (symmetry HC) Hin).
Qed.

(** Storing a payload adds one; when the cleanup runs, at most 100
    remain. *)
Theorem store_payload_bounded (cleanup_drawn : bool) (p : Payload) (payloads : list Payload) :
  NoDup (map p_id (payloads ++ [p])) ->
  length (storeWebhookPayload cleanup_drawn p payloads) =
    if cleanup_drawn then Nat.min 100 (S (length payloads)) else S (length payloads).
Proof.
  intros Hnd. unfold storeWebhookPayload. destruct cleanup_drawn.
  - rewrite (Permutation_length (cleanup_perm _ Hnd)), length_firstn,
      (Permutation_length (merge_sort_Permutation _ _)), length_app, Nat.add_1_r. reflexivity.
  - rewrite length_app. cbn. lia.
Qed.

(** ** Instances of the additional properties *)

Lemma conversation_shape_invariant_witness :
  convs_ok (fold_left (perform ["BOT-1"])
              [OpWebhook 3 (assign_event (ONum 42) "AGENT-9");
               OpWebhook 4 (status_event (ONum 42) "CLOSED"); OpRecalculate 5]
              (store_with {[ "42" := escalated_open "AGENT-7" "BOT-1" ]}
                 (Some (support_with 1)) [])).
Proof.
  apply conversation_shape_invariant.
  unfold convs_ok; cbn [conversations store_with].
  apply map_Forall_singleton, conv_ok_escalation_fields, conv_ok_empty.
Defined.

Lemma other_conversation_untouched_witness :
  conversations (step ["BOT-1"] (store_with {[ "42" := bot_owned "BOT-1" ]} (Some (support_with 0)) [])
                   (5, assign_event (ONum 7) "AGENT-3")) !! "42" =
  conversations (store_with {[ "42" := bot_owned "BOT-1" ]} (Some (support_with 0)) []) !! "42".
Proof.
  exact (proj1 (other_conversation_untouched ["BOT-1"]
    (store_with {[ "42" := bot_owned "BOT-1" ]} (Some (support_with 0)) [])
    5 (assign_event (ONum 7) "AGENT-3") "42" ltac:(vm_compute; discriminate))).
Defined.

Lemma bot_assignment_keeps_escalation_witness :
  exists d',
    conversations (step ["BOT-1"] (store_with {[ "42" := escalated_open "AGENT-7" "BOT-1" ]}
                     (Some (support_with 1)) []) (5, assign_event (ONum 42) "BOT-1")) !! "42" = Some d' /\
    escalated d' = Some true.
Proof.
  destruct (bot_assignment_keeps_escalation ["BOT-1"]
              (store_with {[ "42" := escalated_open "AGENT-7" "BOT-1" ]} (Some (support_with 1)) [])
              5 (ONum 42) "BOT-1" (escalated_open "AGENT-7" "BOT-1")
              eq_refl ltac:(discriminate) eq_refl)
    as (d' & Hd' & _ & _ & _ & He & _).
  exists d'. split; [exact Hd' | rewrite He; reflexivity].
Defined.

Lemma human_after_bot_escalates_witness :
  escalated_count (step ["BOT-1"] (store_with {[ "42" := escalated_open "AGENT-7" "BOT-1" ]}
                     (Some (support_with 1)) []) (5, assign_event (ONum 42) "AGENT-9")) =
  Some (escalated_or_0 (support_with 1) + 1)%Z.
Proof.
  exact (proj1 (proj2 (human_after_bot_escalates ["BOT-1"]
    (store_with {[ "42" := escalated_open "AGENT-7" "BOT-1" ]} (Some (support_with 1)) [])
    5 (ONum 42) "AGENT-7" "AGENT-9" (escalated_open "AGENT-7" "BOT-1") (support_with 1)
    ltac:(discriminate) eq_refl ltac:(discriminate) ltac:(discriminate)
    eq_refl eq_refl eq_refl eq_refl))).
Defined.

Lemma human_without_bot_not_counted_witness :
  support (step ["BOT-1"] (store_with {[ "42" := human_fields "AGENT-3" 1 empty_conv ]}
             (Some (support_with 0)) []) (5, assign_event (ONum 42) "AGENT-4")) =
  Some (support_with 0).
Proof.
  exact (proj1 (human_without_bot_not_counted ["BOT-1"]
    (store_with {[ "42" := human_fields "AGENT-3" 1 empty_conv ]} (Some (support_with 0)) [])
    5 (ONum 42) "AGENT-4" (human_fields "AGENT-3" 1 empty_conv)
    ltac:(discriminate) eq_refl ltac:(discriminate) eq_refl ltac:(discriminate)
    ltac:(intros p Hp; injection Hp as <-; reflexivity))).
Defined.

Lemma closure_keeps_recount_witness :
  escalated_count (step ["BOT-1"] (store_with {[ "42" := escalated_open "AGENT-7" "BOT-1" ]}
                     (Some (support_with 1)) []) (5, status_event (ONum 42) "CLOSED")) =
  Some (Z.of_nat (active_escalations (conversations
    (step ["BOT-1"] (store_with {[ "42" := escalated_open "AGENT-7" "BOT-1" ]}
       (Some (support_with 1)) []) (5, status_event (ONum 42) "CLOSED"))))).
Proof.
  apply (closure_keeps_recount ["BOT-1"] _ 5 (ONum 42) (escalated_open "AGENT-7" "BOT-1")
           (support_with 1)); vm_compute; reflexivity.
Defined.

Lemma first_escalation_keeps_recount_witness :
  escalated_count (step ["BOT-1"] (store_with {[ "42" := bot_owned "BOT-1" ]}
                     (Some (support_with 0)) []) (5, assign_event (ONum 42) "AGENT-7")) =
  Some (Z.of_nat (active_escalations (conversations
    (step ["BOT-1"] (store_with {[ "42" := bot_owned "BOT-1" ]}
       (Some (support_with 0)) []) (5, assign_event (ONum 42) "AGENT-7"))))).
Proof.
  apply (first_escalation_keeps_recount ["BOT-1"] _ 5 (ONum 42) "AGENT-7" (bot_owned "BOT-1")
           (support_with 0)); try discriminate; vm_compute; reflexivity.
Defined.

Lemma closure_of_unescalated_witness :
  support (step ["BOT-1"] (store_with {[ "42" := bot_owned "BOT-1" ]} (Some (support_with 3)) [])
             (5, status_event (ONum 42) "CLOSED")) = Some (support_with 3).
Proof.
  exact (proj1 (closure_of_unescalated ["BOT-1"]
    (store_with {[ "42" := bot_owned "BOT-1" ]} (Some (support_with 3)) [])
    5 (ONum 42) (bot_owned "BOT-1") eq_refl ltac:(discriminate))).
Defined.

Lemma closure_of_unknown_witness :
  conversations (step ["BOT-1"] (store_with ∅ (Some (support_with 3)) [])
                   (5, status_event (ONum 42) "CLOSED")) = ∅.
Proof.
  exact (proj1 (closure_of_unknown ["BOT-1"] (store_with ∅ (Some (support_with 3)) [])
    5 (ONum 42) eq_refl)).
Defined.

Lemma closed_not_on_dashboard_witness :
  exists d',
    conversations (step ["BOT-1"] (store_with {[ "42" := escalated_open "AGENT-7" "BOT-1" ]}
                     (Some (support_with 1)) []) (5, status_event (ONum 42) "CLOSED")) !! "42" = Some d' /\
    open_recent_escalation 6 d' = false.
Proof.
  assert (Hd0 : conversations (store_with {[ "42" := escalated_open "AGENT-7" "BOT-1" ]}
                   (Some (support_with 1)) []) !! js_String (ONum 42) =
                Some (escalated_open "AGENT-7" "BOT-1")) by (vm_compute; reflexivity).
  destruct (closed_not_on_dashboard ["BOT-1"] _ 5 (ONum 42) _ Hd0) as (d' & Hd & _ & _ & Ho).
  exists d'. split; [exact Hd | apply Ho].
Defined.

Lemma creation_event_alerts_new_chat_witness :
  critical_alerts (step ["BOT-1"] (store_with ∅ (Some (support_with 0)) [])
    (5, mkEvent "conversation.creation" None None (ONum 42))) =
  [mkAlert "new_chat" "42"].
Proof.
  apply (creation_event_alerts_new_chat ["BOT-1"] (store_with ∅ (Some (support_with 0)) []) 5
    (mkEvent "conversation.creation" None None (ONum 42))); reflexivity.
Defined.

Lemma parseInt_js_String_num_witness :
  parseInt (js_String (ONum 42)) = Some 42%Z.
Proof. apply (parseInt_js_String_num 42). lia. Defined.

Lemma recent_bot_assignment_sound_witness :
  includes ["BOT-1"] "BOT-1" = true.
Proof.
  apply (proj1 (proj2 (recent_bot_assignment_sound ["BOT-1"] "42"
    (store_with ∅ None [mkLogged (assign_event (ONum 42) "BOT-1") 1]) "BOT-1"
    ltac:(vm_compute; reflexivity)))).
Defined.

Lemma payload_limit_negative_witness :
  payload_limit (Some ("-" ++ js_String (ONum 5))) = (-5)%Z.
Proof. apply (payload_limit_negative 5); lia. Defined.

Lemma getBotAgentIds_round_trip_witness :
  String.concat "," (getBotAgentIds (Some "BOT-1,BOT-2")) = "BOT-1,BOT-2".
Proof. apply getBotAgentIds_round_trip; [discriminate | reflexivity]. Defined.

Lemma cleanup_keeps_newest_witness :
  length (cleanupOldWebhookPayloads (map (fun i => mkPayload i i) (seq 0 105))) =
  Nat.min 100 (length (map (fun i => mkPayload i i) (seq 0 105))).
Proof.
  assert (Hnd : NoDup (map p_id (map (fun i => mkPayload i i) (seq 0 105)))).
  { change (map p_id (map (fun i => mkPayload i i) (seq 0 105))) with (seq 0 105).
    apply NoDup_ListNoDup, seq_NoDup. }
  exact (proj1 (cleanup_keeps_newest _ Hnd)).
Defined.

Lemma store_payload_bounded_witness :
  length (storeWebhookPayload true (mkPayload 100 100) (map (fun i => mkPayload i i) (seq 0 100))) =
  Nat.min 100 (S (length (map (fun i => mkPayload i i) (seq 0 100)))).
Proof.
  apply (store_payload_bounded true).
  change (map p_id (map (fun i => mkPayload i i) (seq 0 100) ++ [mkPayload 100 100]))
    with (seq 0 101).
  apply NoDup_ListNoDup, seq_NoDup.
Defined.

(** ** Clearing the conversations *)

(** [clearAllConversationData] leaves the aggregate counter as it was while
    it deletes every conversation, so the recount drops to 0. *)
Theorem clear_keeps_counter (now : nat) (s : Store) :
  support (clearAllConversationData now s) = support s /\
  conversations (clearAllConversationData now s) = ∅ /\
  active_escalations (conversations (clearAllConversationData now s)) = 0.
Proof.
  unfold clearAllConversationData.
  destruct (decide (conversations s = ∅)) as [He|He]; cbn;
    [rewrite He|]; repeat split; reflexivity.
Qed.
